(** * linux-port-killer: the port manager core ([src/port_manager.py])

    A shallow embedding of [PortManager] and of the part of [psutil] it talks
    to, followed by the properties the specification states about it.

    Python values are modelled as follows.
    - [int] is [Z] (Python integers are unbounded).
    - [str] is [string].  Characters are taken in the ASCII range: [lower]
      folds [A]-[Z] only and [split] breaks on the ASCII white space
      characters; what Python does with code points above 127 is outside
      the model.
    - [None] for an optional attribute is [None] of [option].
    - The operating system is an abstract state [World] behind the [Psutil]
      interface; every call into it returns the next state, and is recorded
      in the event log of the run. *)

From Stdlib Require Import ZArith List String Ascii Bool Arith Lia.
From Stdlib Require Import Sorted Permutation.
From Stdlib Require DecimalString.
Import ListNotations.

Local Open Scope string_scope.
Local Open Scope Z_scope.

(** ** Python string operations *)

Module PyStr.

(** [c.lower()] for one character. *)
Definition lower_char (c : ascii) : ascii :=
  let n := nat_of_ascii c in
  if (65 <=? n)%nat && (n <=? 90)%nat then ascii_of_nat (n + 32) else c.

(** [s.lower()] *)
Fixpoint lower (s : string) : string :=
  match s with
  | EmptyString => EmptyString
  | String c t => String (lower_char c) (lower t)
  end.

(** [s.startswith(p)] *)
Fixpoint startswith (p s : string) : bool :=
  match p, s with
  | EmptyString, _ => true
  | String _ _, EmptyString => false
  | String a p', String b s' => Ascii.eqb a b && startswith p' s'
  end.

(** [needle in hay] *)
Fixpoint str_in (needle hay : string) : bool :=
  match hay with
  | EmptyString => startswith needle EmptyString
  | String _ t => startswith needle hay || str_in needle t
  end.

(** [c.isspace()] on the ASCII range: TAB, LF, VT, FF, CR, FS, GS, RS, US
    and the space. *)
Definition isspace (c : ascii) : bool :=
  let n := nat_of_ascii c in
  ((9 <=? n)%nat && (n <=? 13)%nat) || ((28 <=? n)%nat && (n <=? 32)%nat).

(** [bool(s)]: a string is truthy when it is not empty. *)
Definition truthy (s : string) : bool :=
  match s with EmptyString => false | String _ _ => true end.

(** [s.split()] with no argument: the maximal runs of non-space
    characters, in order.  [word] is the run being read. *)
Fixpoint split_from (word s : string) : list string :=
  match s with
  | EmptyString => if truthy word then [word] else []
  | String c t =>
      if isspace c
      then (if truthy word then word :: split_from EmptyString t
            else split_from EmptyString t)
      else split_from (word ++ String c EmptyString) t
  end.

Definition split (s : string) : list string := split_from EmptyString s.

(** [sep.join(parts)] *)
Definition join (sep : string) (parts : list string) : string :=
  String.concat sep parts.

(** [s[:n]] *)
Definition take (n : nat) (s : string) : string := substring 0 n s.

(** The characters of a string. *)
Fixpoint chars (s : string) : list ascii :=
  match s with
  | EmptyString => []
  | String c t => c :: chars t
  end.

End PyStr.
Import PyStr.

(** ** Data model *)

(** [@dataclass class PortProcess] *)
Record PortProcess : Type := mkPortProcess {
  port : Z;
  pid : Z;
  process_name : string;
  cmdline : string;
  protocol : string;
  status : string;
  is_protected : bool
}.

(** The local address of a connection, [conn.laddr]: an [(ip, port)] pair,
    or the empty tuple (here [None]) when the socket has none. *)
Record addr : Type := mkAddr { addr_ip : string; addr_port : Z }.

(** One entry of [psutil.net_connections(kind='inet')]. *)
Record sconn : Type := mkSconn {
  conn_laddr : option addr;
  conn_pid : option Z;
  conn_status : string;
  conn_type : Z
}.

(** ** Static classification tables *)

(** [PortManager.PROTECTED_PROCESSES].  A Python set; it is only ever
    traversed by [any], whose value does not depend on the order. *)
Definition PROTECTED_PROCESSES : list string :=
  ["postgres"; "postgresql"; "mysqld"; "mysql";
   "redis-server"; "mongod"; "nginx"; "apache2"].

(** [PortManager.DEV_PORT_RANGES] *)
Definition DEV_PORT_RANGES : list (Z * Z) :=
  [(3000, 3999); (4200, 4299); (5000, 5999);
   (8000, 8999); (5173, 5173); (8080, 8080)].

(** ** Classification *)

(** [PortManager.is_dev_port] *)
Definition is_dev_port (port : Z) : bool :=
  existsb (fun r => let '(start, stop) := r in (start <=? port) && (port <=? stop))
          DEV_PORT_RANGES.

(** The protection test of [get_listening_ports]:
    [any(protected in process_name.lower() for protected in PROTECTED_PROCESSES)] *)
Definition protected_name (process_name : string) : bool :=
  existsb (fun protected => str_in protected (lower process_name))
          PROTECTED_PROCESSES.

(** ** Humanization *)

(** Each top-level [if] of [_humanize_cmdline] is a block that either
    returns a label or falls through to the next one. *)

(** [cmdline.split()[-1]]; every use is guarded by a substring test that
    makes the split non-empty (lemma [split_nonempty_of_word]). *)
Definition last_word (cmdline : string) : string :=
  last (split cmdline) EmptyString.

Definition vscode_block (cmdline process_name : string) : option string :=
  if str_in "code" (lower process_name) || str_in "/snap/code/" cmdline then
    if str_in "/proc/self/exe" cmdline && str_in "type=utility" cmdline then
      Some "VSCode - Utility Process"
    else if str_in "/proc/self/exe" cmdline && str_in "type=renderer" cmdline then
      Some "VSCode - Renderer Process"
    else if str_in "pylance" (lower cmdline) || str_in "vscode-pylance" cmdline then
      Some "VSCode - Pylance Language Server"
    else if str_in "extensions" cmdline && str_in ".js" cmdline then
      if str_in "ms-python" cmdline then Some "VSCode - Python Extension"
      else if str_in "ms-vscode" cmdline then Some "VSCode - Extension Server"
      else Some "VSCode - Extension Process"
    else None
  else None.

Definition electron_utility_block (cmdline process_name : string) : option string :=
  if str_in "/proc/self/exe" cmdline && str_in "type=utility" cmdline then
    Some (process_name ++ " - Utility Process")
  else None.

Definition electron_renderer_block (cmdline process_name : string) : option string :=
  if str_in "/proc/self/exe" cmdline && str_in "type=renderer" cmdline then
    Some (process_name ++ " - Renderer Process")
  else None.

Definition node_block (cmdline process_name : string) : option string :=
  if str_in "node" (lower process_name) then
    if str_in "vite" (lower cmdline) then Some "Vite Dev Server"
    else if str_in "webpack" (lower cmdline) then Some "Webpack Dev Server"
    else if str_in "next" (lower cmdline) then Some "Next.js Dev Server"
    else if str_in "react-scripts" (lower cmdline) then Some "React Dev Server"
    else if str_in "vue-cli-service" (lower cmdline) then Some "Vue Dev Server"
    else if str_in "nodemon" (lower cmdline) then
      Some (if truthy cmdline then "Nodemon - " ++ last_word cmdline else "Nodemon")
    else if str_in "ts-node" (lower cmdline) then
      Some (if truthy cmdline then "TypeScript Node - " ++ last_word cmdline
            else "TypeScript Node")
    else None
  else None.

Definition python_block (cmdline process_name : string) : option string :=
  if str_in "python" (lower process_name) then
    if str_in "manage.py runserver" cmdline then Some "Django Dev Server"
    else if str_in "flask run" cmdline || str_in "app.py" cmdline then
      Some "Flask Dev Server"
    else if str_in "uvicorn" cmdline then Some "Uvicorn (FastAPI/Starlette)"
    else if str_in "gunicorn" cmdline then Some "Gunicorn WSGI Server"
    else None
  else None.

Definition java_block (cmdline process_name : string) : option string :=
  if str_in "java" (lower process_name) then
    if str_in "spring" (lower cmdline) then Some "Spring Boot Application"
    else if str_in ".jar" cmdline then
      let jar_name := filter (fun p => str_in ".jar" p) (split cmdline) in
      Some ("Java Application - " ++ hd "jar" jar_name)
    else None
  else None.

Definition docker_block (cmdline process_name : string) : option string :=
  if str_in "docker-proxy" process_name then Some "Docker Container Port Proxy"
  else None.

(** The blocks in the order the function runs them. *)
Definition humanize_blocks : list (string -> string -> option string) :=
  [vscode_block; electron_utility_block; electron_renderer_block;
   node_block; python_block; java_block; docker_block].

(** The first block that returns decides; [fallback] is what is returned
    when every block falls through. *)
Fixpoint first_return (blocks : list (string -> string -> option string))
    (cmdline process_name fallback : string) : string :=
  match blocks with
  | [] => fallback
  | block :: rest =>
      match block cmdline process_name with
      | Some label => label
      | None => first_return rest cmdline process_name fallback
      end
  end.

(** [PortManager._humanize_cmdline]; its last statement is
    [return cmdline]. *)
Definition _humanize_cmdline (cmdline process_name : string) : string :=
  first_return humanize_blocks cmdline process_name cmdline.

(** The guards under which [_humanize_cmdline] reaches a labelled
    [return], written out pattern by pattern. *)
Definition vscode_pattern (cmdline process_name : string) : bool :=
  (str_in "code" (lower process_name) || str_in "/snap/code/" cmdline)
  && ((str_in "/proc/self/exe" cmdline && str_in "type=utility" cmdline)
      || (str_in "/proc/self/exe" cmdline && str_in "type=renderer" cmdline)
      || (str_in "pylance" (lower cmdline) || str_in "vscode-pylance" cmdline)
      || (str_in "extensions" cmdline && str_in ".js" cmdline)).

Definition electron_pattern (cmdline : string) : bool :=
  str_in "/proc/self/exe" cmdline
  && (str_in "type=utility" cmdline || str_in "type=renderer" cmdline).

Definition node_pattern (cmdline process_name : string) : bool :=
  str_in "node" (lower process_name)
  && existsb (fun tool => str_in tool (lower cmdline))
       ["vite"; "webpack"; "next"; "react-scripts"; "vue-cli-service";
        "nodemon"; "ts-node"].

Definition python_pattern (cmdline process_name : string) : bool :=
  str_in "python" (lower process_name)
  && existsb (fun mark => str_in mark cmdline)
       ["manage.py runserver"; "flask run"; "app.py"; "uvicorn"; "gunicorn"].

Definition java_pattern (cmdline process_name : string) : bool :=
  str_in "java" (lower process_name)
  && (str_in "spring" (lower cmdline) || str_in ".jar" cmdline).

Definition docker_pattern (process_name : string) : bool :=
  str_in "docker-proxy" process_name.

Definition pattern_matches (cmdline process_name : string) : bool :=
  vscode_pattern cmdline process_name
  || electron_pattern cmdline
  || node_pattern cmdline process_name
  || python_pattern cmdline process_name
  || java_pattern cmdline process_name
  || docker_pattern process_name.

(** ** The operating system seen through psutil *)

(** The exceptions of [psutil] that the port manager names. *)
Inductive psutil_error : Type :=
| NoSuchProcess
| AccessDenied
| TimeoutExpired.

(** What a Python call does: it returns a value or raises. *)
Inductive outcome (A : Type) : Type :=
| Returned (a : A)
| Raised (e : psutil_error).
Arguments Returned {A} a.
Arguments Raised {A} e.

Definition error_of {A : Type} (r : outcome A) : option psutil_error :=
  match r with Returned _ => None | Raised e => Some e end.

(** The calls the port manager makes.  A [psutil.Process] handle is
    identified with the pid it was built from. *)
Inductive call : Type :=
| NetConnections                       (* psutil.net_connections(kind='inet') *)
| ProcessNew (pid : Z)                 (* psutil.Process(pid) *)
| ProcessCmdline (pid : Z)             (* process.cmdline() *)
| ProcessName (pid : Z)                (* process.name() *)
| ProcessKill (pid : Z)                (* process.kill(): SIGKILL *)
| ProcessTerminate (pid : Z)           (* process.terminate(): SIGTERM *)
| ProcessWait (pid : Z) (timeout : Z). (* process.wait(timeout=...) *)

(** One entry of the log of a run: the call and the exception it raised,
    if any. *)
Record event : Type := mkEvent {
  ev_call : call;
  ev_error : option psutil_error
}.

(** The host: every call answers from the current state and yields the
    next one.  Nothing is assumed about the answers. *)
Class Psutil (World : Type) : Type := {
  os_net_connections : World -> outcome (list sconn) * World;
  os_Process : Z -> World -> outcome unit * World;
  os_cmdline : Z -> World -> outcome (list string) * World;
  os_name : Z -> World -> outcome string * World;
  os_kill : Z -> World -> outcome unit * World;
  os_terminate : Z -> World -> outcome unit * World;
  os_wait : Z -> Z -> World -> outcome unit * World
}.

(** A computation over the host: from a state, an outcome, the calls
    made (oldest first) and the state reached. *)
Definition M (World A : Type) : Type :=
  World -> outcome A * list event * World.

Definition ret {World A : Type} (a : A) : M World A :=
  fun w => (Returned a, [], w).

Definition bind {World A B : Type} (m : M World A) (k : A -> M World B)
  : M World B :=
  fun w =>
    match m w with
    | (Returned a, l1, w1) =>
        let '(r, l2, w2) := k a w1 in (r, (l1 ++ l2)%list, w2)
    | (Raised e, l1, w1) => (Raised e, l1, w1)
    end.

Notation "x <- m ;; k" := (bind m (fun x => k))
  (at level 61, m at next level, right associativity).

(** [try: body / except ...: handler].  [handler e] is [None] when no
    [except] clause catches [e]. *)
Definition try_except {World A : Type} (body : M World A)
    (handler : psutil_error -> option (M World A)) : M World A :=
  fun w =>
    match body w with
    | (Returned a, l1, w1) => (Returned a, l1, w1)
    | (Raised e, l1, w1) =>
        match handler e with
        | Some h => let '(r, l2, w2) := h w1 in (r, (l1 ++ l2)%list, w2)
        | None => (Raised e, l1, w1)
        end
    end.

(** A call into the host, logged. *)
Definition sys {World A : Type} (c : call)
    (answer : World -> outcome A * World) : M World A :=
  fun w => let '(r, w1) := answer w in (r, [mkEvent c (error_of r)], w1).

(** [sorted(items, key=key)].  Python's sort is stable; it is modelled by
    insertion from the right, which puts an item before the first later
    item whose key is not smaller. *)
Fixpoint insert_by {A : Type} (key : A -> Z) (x : A) (l : list A) : list A :=
  match l with
  | [] => [x]
  | y :: t => if key x <=? key y then x :: y :: t else y :: insert_by key x t
  end.

Fixpoint sorted {A : Type} (key : A -> Z) (items : list A) : list A :=
  match items with
  | [] => []
  | x :: t => insert_by key x (sorted key t)
  end.

(** ** The port manager *)

Section PortManager.

Context {World : Type} {os : Psutil World}.

Definition psutil_net_connections : M World (list sconn) :=
  sys NetConnections os_net_connections.
Definition psutil_Process (pid : Z) : M World unit :=
  sys (ProcessNew pid) (os_Process pid).
Definition Process_cmdline (pid : Z) : M World (list string) :=
  sys (ProcessCmdline pid) (os_cmdline pid).
Definition Process_name (pid : Z) : M World string :=
  sys (ProcessName pid) (os_name pid).
Definition Process_kill (pid : Z) : M World unit :=
  sys (ProcessKill pid) (os_kill pid).
Definition Process_terminate (pid : Z) : M World unit :=
  sys (ProcessTerminate pid) (os_terminate pid).
Definition Process_wait (pid timeout : Z) : M World unit :=
  sys (ProcessWait pid timeout) (os_wait pid timeout).

(** The [PortProcess(...)] built at lines 105-126 from a connection with
    local port [lport] and pid [cpid], the arguments and the name of
    its process. *)
Definition make_port_proc (conn : sconn) (lport cpid : Z)
    (args : list string) (name : string) : PortProcess :=
  let cmdline := join " " args in
  let cmdline_human := _humanize_cmdline cmdline name in
  let is_protected := protected_name name in
  {| port := lport;
     pid := cpid;
     process_name := name;
     cmdline := take 150 cmdline_human;
     protocol := if conn_type conn =? 1 then "TCP" else "UDP";
     status := conn_status conn;
     is_protected := is_protected |}.

(** One turn of the [for conn in ...] loop of [get_listening_ports];
    [ports] is the list built so far. *)
Definition visit (conn : sconn) (ports : list PortProcess)
  : M World (list PortProcess) :=
  if negb (String.eqb (conn_status conn) "LISTEN") then ret ports
  else
    match conn_laddr conn with
    | None => ret ports
    | Some laddr =>
        if addr_port laddr =? 0 then ret ports
        else
          try_except
            (match conn_pid conn with
             | None => ret ports
             | Some cpid =>
                 if cpid =? 0 then ret ports
                 else
                   _ <- psutil_Process cpid ;;
                   args <- Process_cmdline cpid ;;
                   name <- Process_name cpid ;;
                   ret (ports ++ [make_port_proc conn (addr_port laddr) cpid args name])%list
             end)
            (fun e =>
               match e with
               | NoSuchProcess | AccessDenied => Some (ret ports)
               | TimeoutExpired => None
               end)
    end.

Fixpoint scan (conns : list sconn) (ports : list PortProcess)
  : M World (list PortProcess) :=
  match conns with
  | [] => ret ports
  | conn :: rest => ports' <- visit conn ports ;; scan rest ports'
  end.

(** [PortManager.get_listening_ports] *)
Definition get_listening_ports : M World (list PortProcess) :=
  conns <- psutil_net_connections ;;
  ports <- scan conns [] ;;
  ret (sorted port ports).

(** [PortManager.get_dev_ports] *)
Definition get_dev_ports : M World (list PortProcess) :=
  all_ports <- get_listening_ports ;;
  ret (filter (fun p => is_dev_port (port p)) all_ports).

(** The [try] block of [kill_process], lines 283-294. *)
Definition kill_attempt (pid : Z) (force : bool) : M World bool :=
  _ <- psutil_Process pid ;;
  _ <- (if force then Process_kill pid else Process_terminate pid) ;;
  _ <- Process_wait pid 3 ;;
  ret true.

(** The body of [kill_process]; [self] stands for the function in its
    recursive call. *)
Definition kill_process_body (self : Z -> bool -> M World bool)
    (pid : Z) (force : bool) : M World bool :=
  try_except (kill_attempt pid force)
    (fun e =>
       match e with
       | NoSuchProcess => Some (ret true)
       | AccessDenied => Some (ret false)
       | TimeoutExpired =>
           Some (if negb force then self pid true else ret false)
       end).

(** [PortManager.kill_process].  The recursive call is made with
    [force = true], and the body run with [force = true] makes none: two
    unfoldings of the body are the whole function, whatever stands
    below them (lemmas [kill_process_body_forced] and
    [kill_process_unfold]). *)
Definition kill_process : Z -> bool -> M World bool :=
  kill_process_body (kill_process_body (fun _ _ => ret false)).

Fixpoint first_on_port (wanted : Z) (ports : list PortProcess)
  : option PortProcess :=
  match ports with
  | [] => None
  | port_proc :: rest =>
      if port port_proc =? wanted then Some port_proc
      else first_on_port wanted rest
  end.

(** [PortManager.kill_port] *)
Definition kill_port (wanted : Z) (force : bool) : M World bool :=
  ports <- get_listening_ports ;;
  match first_on_port wanted ports with
  | Some port_proc => kill_process (pid port_proc) force
  | None => ret false
  end.

(** The [for port_proc in dev_ports] loop of [kill_all_dev_ports]. *)
Fixpoint kill_each (force : bool) (dev_ports : list PortProcess)
    (killed_count : Z) : M World Z :=
  match dev_ports with
  | [] => ret killed_count
  | port_proc :: rest =>
      if negb (is_protected port_proc) then
        ok <- kill_process (pid port_proc) force ;;
        kill_each force rest (if ok then killed_count + 1 else killed_count)
      else kill_each force rest killed_count
  end.

(** [PortManager.kill_all_dev_ports] *)
Definition kill_all_dev_ports (force : bool) : M World Z :=
  dev_ports <- get_dev_ports ;;
  kill_each force dev_ports 0.

(** [PortManager.get_port_info] *)
Definition get_port_info (wanted : Z) : M World (option PortProcess) :=
  ports <- get_listening_ports ;;
  ret (first_on_port wanted ports).

(** The answers [kill_process] gives, in order, when it is called on
    each pid of [pids] in turn, starting from [w]. *)
Fixpoint kill_answers (force : bool) (pids : list Z) (w : World)
  : list (outcome bool) :=
  match pids with
  | [] => []
  | p :: rest =>
      let '(r, _, w1) := kill_process p force w in
      r :: kill_answers force rest w1
  end.

End PortManager.

(** The pid a call is about. *)
Definition call_pid (c : call) : option Z :=
  match c with
  | NetConnections => None
  | ProcessNew p | ProcessCmdline p | ProcessName p
  | ProcessKill p | ProcessTerminate p | ProcessWait p _ => Some p
  end.

Definition is_signal (c : call) : bool :=
  match c with
  | ProcessKill _ | ProcessTerminate _ => true
  | _ => false
  end.

Definition is_forced_signal (c : call) : bool :=
  match c with
  | ProcessKill _ => true
  | _ => false
  end.

(** ** A small host to run the port manager on

    A table of processes and a list of sockets.  How a process takes a
    signal is its [temper]. *)

Module Sim.

Inductive temper : Type :=
| Obedient   (* exits on SIGTERM and on SIGKILL *)
| Stubborn   (* ignores SIGTERM, exits on SIGKILL *)
| Foreign    (* owned by another user: signals are refused *)
| Undead.    (* takes any signal and never exits *)

Record proc : Type := mkProc {
  proc_pid : Z;
  proc_name : string;
  proc_args : list string;
  proc_temper : temper
}.

Record host : Type := mkHost {
  procs : list proc;
  conns : list sconn
}.

Fixpoint find_proc (p : Z) (table : list proc) : option proc :=
  match table with
  | [] => None
  | x :: rest => if proc_pid x =? p then Some x else find_proc p rest
  end.

Definition reap (p : Z) (h : host) : host :=
  {| procs := filter (fun x => negb (proc_pid x =? p)) (procs h);
     conns := conns h |}.

Definition inspect {A : Type} (read : proc -> A) (p : Z) (h : host)
  : outcome A * host :=
  match find_proc p (procs h) with
  | Some x => (Returned (read x), h)
  | None => (Raised NoSuchProcess, h)
  end.

Definition signal (lethal : temper -> bool) (p : Z) (h : host)
  : outcome unit * host :=
  match find_proc p (procs h) with
  | None => (Raised NoSuchProcess, h)
  | Some x =>
      match proc_temper x with
      | Foreign => (Raised AccessDenied, h)
      | t => (Returned tt, if lethal t then reap p h else h)
      end
  end.

Definition wait (p timeout : Z) (h : host) : outcome unit * host :=
  match find_proc p (procs h) with
  | Some _ => (Raised TimeoutExpired, h)
  | None => (Returned tt, h)
  end.

#[global] Instance sim_psutil : Psutil host := {|
  os_net_connections := fun h => (Returned (conns h), h);
  os_Process := inspect (fun _ => tt);
  os_cmdline := inspect proc_args;
  os_name := inspect proc_name;
  os_kill := signal (fun t => match t with Obedient | Stubborn => true | _ => false end);
  os_terminate := signal (fun t => match t with Obedient => true | _ => false end);
  os_wait := wait
|}.

Definition listen (lport : Z) (owner : option Z) : sconn :=
  {| conn_laddr := Some (mkAddr "0.0.0.0" lport);
     conn_pid := owner;
     conn_status := "LISTEN";
     conn_type := 1 |}.

(** The scenario of the specification (sshd on 22, node on 3000,
    postgres on 5432, which the range 5000-5999 makes a development
    port) with a few more sockets: mysqld on 3001, a stubborn server, a
    process of another user, a socket with no owner, one owned by pid 0,
    one whose owner is gone, two sockets on the same port, and a
    connection that is not listening. *)
Definition demo : host :=
  {| procs :=
       [ mkProc 100 "sshd" ["/usr/sbin/sshd"; "-D"] Obedient;
         mkProc 200 "node" ["node"; "server.js"] Obedient;
         mkProc 300 "postgres" ["/usr/lib/postgresql/bin/postgres"] Obedient;
         mkProc 400 "mysqld" ["/usr/sbin/mysqld"; "--port=3306"] Obedient;
         mkProc 500 "python3" ["python3"; "manage.py"; "runserver"] Stubborn;
         mkProc 600 "java" ["java"; "-jar"; "app.jar"] Foreign;
         mkProc 700 "node" ["node"; "other.js"] Undead ];
     conns :=
       [ listen 8000 (Some 500);
         listen 5432 (Some 300);
         listen 3000 (Some 200);
         listen 22 (Some 100);
         listen 3306 None;
         listen 3001 (Some 400);
         listen 8080 (Some 600);
         listen 4200 (Some 0);
         listen 3000 (Some 700);
         listen 5000 (Some 999);
         {| conn_laddr := Some (mkAddr "127.0.0.1" 3000);
            conn_pid := Some 200;
            conn_status := "ESTABLISHED";
            conn_type := 1 |} ] |}.

(** A host that refuses the connection query, as a system does that
    keeps the sockets of other users from an unprivileged caller. *)
Definition locked : Psutil host := {|
  os_net_connections := fun h => (Raised AccessDenied, h);
  os_Process := inspect (fun _ => tt);
  os_cmdline := inspect proc_args;
  os_name := inspect proc_name;
  os_kill := signal (fun t => match t with Obedient | Stubborn => true | _ => false end);
  os_terminate := signal (fun t => match t with Obedient => true | _ => false end);
  os_wait := wait
|}.

(** What [get_dev_ports] lists on [demo]. *)
Definition demo_dev_ports : list PortProcess :=
  Eval vm_compute in
    match get_dev_ports demo with
    | (Returned dev_ports, _, _) => dev_ports
    | (Raised _, _, _) => []
    end.

End Sim.

(** ** Vocabulary of the properties *)

(** Ascending by key. *)
Definition ascending {A : Type} (key : A -> Z) (l : list A) : Prop :=
  Sorted (fun a b => key a <= key b) l.

(** What ties a finding to the connection it was built from. *)
Definition finding_of (conn : sconn) (f : PortProcess) : Prop :=
  conn_status conn = "LISTEN"
  /\ (exists laddr, conn_laddr conn = Some laddr
                    /\ addr_port laddr <> 0 /\ port f = addr_port laddr)
  /\ conn_pid conn = Some (pid f)
  /\ pid f <> 0
  /\ status f = conn_status conn
  /\ is_protected f = protected_name (process_name f).

(** The findings bulk termination acts on. *)
Definition unprotected (dev_ports : list PortProcess) : list PortProcess :=
  filter (fun p => negb (is_protected p)) dev_ports.

(** How many of the answers are [True]. *)
Definition count_successes (answers : list (outcome bool)) : Z :=
  Z.of_nat (List.length
              (filter (fun r => match r with
                                | Returned true => true
                                | _ => false
                                end) answers)).

(** Two findings that bulk termination cannot tell apart: they may differ
    in name, command line label, protocol and status. *)
Definition same_target (a b : PortProcess) : Prop :=
  port a = port b /\ pid a = pid b /\ is_protected a = is_protected b.

(** The host [os] with another answer to [process.cmdline()]. *)
Definition with_cmdline {World : Type} (os : Psutil World)
    (answer : Z -> World -> outcome (list string) * World) : Psutil World :=
  {| os_net_connections := @os_net_connections World os;
     os_Process := @os_Process World os;
     os_cmdline := answer;
     os_name := @os_name World os;
     os_kill := @os_kill World os;
     os_terminate := @os_terminate World os;
     os_wait := @os_wait World os |}.

(** Two answers to [process.cmdline()] that differ in the command line
    they report and in nothing else: they raise alike and leave the host
    in the same state. *)
Definition cmdline_alike {World : Type}
    (answer1 answer2 : Z -> World -> outcome (list string) * World) : Prop :=
  forall (p : Z) (w : World),
    error_of (fst (answer1 p w)) = error_of (fst (answer2 p w))
    /\ snd (answer1 p w) = snd (answer2 p w).

(** Two runs of the enumeration that made the same calls, reached the
    same state, and raised alike or returned lists that agree finding by
    finding on port, pid and protection. *)
Definition listing_alike {World : Type}
    (run1 run2 : outcome (list PortProcess) * list event * World) : Prop :=
  match run1, run2 with
  | (Returned l1, log1, w1), (Returned l2, log2, w2) =>
      Forall2 same_target l1 l2 /\ log1 = log2 /\ w1 = w2
  | (Raised e1, log1, w1), (Raised e2, log2, w2) =>
      e1 = e2 /\ log1 = log2 /\ w1 = w2
  | _, _ => False
  end.

(** ** The command line front end ([src/cli.py])

    The two commands that terminate processes.  A command runs over the
    host and the console: [print] writes its argument and a newline,
    [input] writes the prompt and reads a line, and raises [EOFError]
    when there is none; [sys.exit] ends the command with a status.  An
    exception of [psutil] is not caught by a command. *)

Module Cli.

(** The console: what was written to the standard output, oldest first,
    and the lines still to be read from the standard input. *)
Record console : Type := mkConsole {
  stdout : list string;
  stdin : list string
}.

Inductive uncaught : Type :=
| PsutilError (e : psutil_error)
| EOFError.

(** How a command ends: it returns, it exits with a status, or an
    exception leaves it. *)
Inductive ending (A : Type) : Type :=
| Done (a : A)
| SysExit (code : Z)
| Uncaught (e : uncaught).
Arguments Done {A} a.
Arguments SysExit {A} code.
Arguments Uncaught {A} e.

Definition Cmd (World A : Type) : Type :=
  World -> console -> ending A * list event * World * console.

Definition done {World A : Type} (a : A) : Cmd World A :=
  fun w c => (Done a, [], w, c).

Definition and_then {World A B : Type} (m : Cmd World A)
    (k : A -> Cmd World B) : Cmd World B :=
  fun w c =>
    match m w c with
    | (Done a, l1, w1, c1) =>
        let '(r, l2, w2, c2) := k a w1 c1 in (r, (l1 ++ l2)%list, w2, c2)
    | (SysExit code, l1, w1, c1) => (SysExit code, l1, w1, c1)
    | (Uncaught e, l1, w1, c1) => (Uncaught e, l1, w1, c1)
    end.

Notation "x <~ m ;; k" := (and_then m (fun x => k))
  (at level 61, m at next level, right associativity).

(** A call of the port manager from a command. *)
Definition call_core {World A : Type} (m : M World A) : Cmd World A :=
  fun w c =>
    let '(r, l, w1) := m w in
    (match r with
     | Returned a => Done a
     | Raised e => Uncaught (PsutilError e)
     end, l, w1, c).

Definition newline : string := String (ascii_of_nat 10) EmptyString.

Definition quote : string := String (ascii_of_nat 34) EmptyString.

(** [print(s)] *)
Definition print {World : Type} (s : string) : Cmd World unit :=
  fun w c =>
    (Done tt, [], w,
     {| stdout := (stdout c ++ [(s ++ newline)%string])%list;
        stdin := stdin c |}).

(** [input(prompt)] *)
Definition input {World : Type} (prompt : string) : Cmd World string :=
  fun w c =>
    match stdin c with
    | [] =>
        (Uncaught EOFError, [], w,
         {| stdout := (stdout c ++ [prompt])%list; stdin := [] |})
    | line :: rest =>
        (Done line, [], w,
         {| stdout := (stdout c ++ [prompt])%list; stdin := rest |})
    end.

(** [sys.exit(code)] *)
Definition sys_exit {World A : Type} (code : Z) : Cmd World A :=
  fun w c => (SysExit code, [], w, c).

(** [str(n)] for an integer. *)
Definition str (n : Z) : string :=
  DecimalString.NilZero.string_of_int (Z.to_int n).

(** [len(l)] *)
Definition len {A : Type} (l : list A) : Z := Z.of_nat (List.length l).

(** The arguments of [kill PORT [-f] [-y]]. *)
Record kill_args : Type := mkKillArgs {
  arg_port : Z;
  arg_force : bool;
  arg_yes : bool
}.

(** The arguments of [kill-dev [-f] [-y]]. *)
Record kill_dev_args : Type := mkKillDevArgs {
  dev_force : bool;
  dev_yes : bool
}.

Section Commands.

Context {World : Type} {os : Psutil World}.

(** The [for port in dev_ports: print(...)] loop of [kill_all_dev]. *)
Fixpoint print_each (dev_ports : list PortProcess) : Cmd World unit :=
  match dev_ports with
  | [] => done tt
  | p :: rest =>
      _ <~ print ("  - " ++ str (port p) ++ ": " ++ process_name p) ;;
      print_each rest
  end.

(** [cli.kill_all_dev] *)
Definition kill_all_dev (args : kill_dev_args) : Cmd World unit :=
  dev_ports <~ call_core get_dev_ports ;;
  match dev_ports with
  | [] => print "No development ports to kill"
  | _ :: _ =>
      _ <~ print ("Found " ++ str (len dev_ports) ++ " development ports") ;;
      _ <~ (if negb (dev_yes args) then
              _ <~ print_each dev_ports ;;
              response <~ input (newline ++ "Kill all these processes? [y/N]: ") ;;
              if negb (String.eqb (lower response) "y") then
                _ <~ print "Cancelled" ;;
                sys_exit 0
              else done tt
            else done tt) ;;
      killed <~ call_core (kill_all_dev_ports (dev_force args)) ;;
      print (newline ++ "Killed " ++ str killed ++ " processes")
  end.

(** [cli.kill_port].  The [PortManager.kill_port] it calls is the
    [kill_port] of the port manager above. *)
Definition kill_port (args : kill_args) : Cmd World unit :=
  let wanted := arg_port args in
  let force := arg_force args in
  port_info <~ call_core (get_port_info wanted) ;;
  match port_info with
  | None =>
      _ <~ print ("Error: No process found on port " ++ str wanted) ;;
      sys_exit 1
  | Some port_info =>
      _ <~ (if is_protected port_info && negb (arg_yes args) then
              _ <~ print ("Warning: Process " ++ quote
                          ++ process_name port_info ++ quote
                          ++ " is marked as protected") ;;
              response <~ input "Continue? [y/N]: " ;;
              if negb (String.eqb (lower response) "y") then
                _ <~ print "Cancelled" ;;
                sys_exit 0
              else done tt
            else done tt) ;;
      _ <~ print ("Killing process " ++ process_name port_info
                  ++ " (PID " ++ str (pid port_info) ++ ") on port "
                  ++ str wanted ++ "...") ;;
      success <~ call_core (kill_port wanted force) ;;
      if (success : bool) then
        print ("Successfully killed process on port " ++ str wanted)
      else
        _ <~ print ("Error: Failed to kill process on port " ++ str wanted) ;;
        sys_exit 1
  end.

End Commands.

(** The parts of the result of a command. *)
Definition ending_of {World A : Type}
    (run : ending A * list event * World * console) : ending A :=
  fst (fst (fst run)).

Definition calls_of {World A : Type}
    (run : ending A * list event * World * console) : list event :=
  snd (fst (fst run)).

Definition console_of {World A : Type}
    (run : ending A * list event * World * console) : console :=
  snd run.

(** The user agrees: the next line of input is y or Y. *)
Definition agrees (c : console) : Prop :=
  exists line rest, stdin c = line :: rest /\ lower line = "y".

End Cli.

(** ** Vocabulary of the further properties *)

(** The calls that only read the state of the host. *)
Definition is_inspection (c : call) : bool :=
  match c with
  | NetConnections | ProcessNew _ | ProcessCmdline _ | ProcessName _ => true
  | ProcessKill _ | ProcessTerminate _ | ProcessWait _ _ => false
  end.

Definition is_graceful_signal (c : call) : bool :=
  match c with
  | ProcessTerminate _ => true
  | _ => false
  end.

Definition is_wait (c : call) : bool :=
  match c with
  | ProcessWait _ _ => true
  | _ => false
  end.

(** How many calls of a log satisfy [test]. *)
Definition count_calls (test : call -> bool) (log : list event) : nat :=
  List.length (filter (fun e => test (ev_call e)) log).

(** A connection that passes the three guards of the loop of
    [get_listening_ports]: it listens, it has a local port other than 0,
    and it carries a pid other than 0. *)
Definition eligible (conn : sconn) : bool :=
  String.eqb (conn_status conn) "LISTEN"
  && match conn_laddr conn with
     | Some laddr => negb (addr_port laddr =? 0)
     | None => false
     end
  && match conn_pid conn with
     | Some cpid => negb (cpid =? 0)
     | None => false
     end.

(** What holds of every field of a finding of the enumeration. *)
Definition well_formed (f : PortProcess) : Prop :=
  status f = "LISTEN"
  /\ port f <> 0
  /\ pid f <> 0
  /\ (protocol f = "TCP" \/ protocol f = "UDP")
  /\ (String.length (cmdline f) <= 150)%nat
  /\ is_protected f = protected_name (process_name f).

(** The first finding of a list that is on port [wanted]. *)
Definition first_with_port (wanted : Z) (l : list PortProcess)
  : option PortProcess :=
  hd_error (filter (fun f => port f =? wanted) l).

(** The three calls by which the loop of [get_listening_ports] inspects
    the process of a connection (lines 102-106). *)
Definition inspect_process {World : Type} {os : Psutil World} (cpid : Z)
  : M World (list string * string) :=
  _ <- psutil_Process cpid ;;
  args <- Process_cmdline cpid ;;
  name <- Process_name cpid ;;
  ret (args, name).

(** The calls of a run. *)
Definition log_of {World A : Type} (run : outcome A * list event * World)
  : list event :=
  snd (fst run).


(** * Properties *)

(** ** Tactics *)

(** Case analysis on the substring tests of a goal, in the order they
    occur. *)
Ltac case_guards :=
  repeat match goal with
         | |- context [str_in ?needle ?hay] =>
             destruct (str_in needle hay); cbn [andb orb negb existsb]
         end.

Ltac settle_guards :=
  case_guards; split; intros H; first [reflexivity | discriminate H].

(** Unfolding of the plumbing of a run. *)
Ltac run_unfold :=
  unfold psutil_net_connections, psutil_Process, Process_cmdline,
    Process_name, Process_kill, Process_terminate, Process_wait,
    try_except, bind, sys, ret, error_of in *.

(** Case analysis on the next answer of the host that a run, given as
    the hypothesis [H], depends on. *)
Ltac os_step H :=
  match type of H with
  | context [os_net_connections ?w] =>
      destruct (os_net_connections w) as [[?|[]] ?] eqn:?
  | context [os_Process ?p ?w] =>
      destruct (os_Process p w) as [[[]|[]] ?] eqn:?
  | context [os_cmdline ?p ?w] =>
      destruct (os_cmdline p w) as [[?|[]] ?] eqn:?
  | context [os_name ?p ?w] =>
      destruct (os_name p w) as [[?|[]] ?] eqn:?
  | context [os_kill ?p ?w] =>
      destruct (os_kill p w) as [[[]|[]] ?] eqn:?
  | context [os_terminate ?p ?w] =>
      destruct (os_terminate p w) as [[[]|[]] ?] eqn:?
  | context [os_wait ?p ?t ?w] =>
      destruct (os_wait p t w) as [[[]|[]] ?] eqn:?
  end; cbn in H.

(** The same on the goal. *)
Ltac os_step_goal :=
  match goal with
  | |- context [os_net_connections ?w] =>
      destruct (os_net_connections w) as [[?|[]] ?] eqn:?
  | |- context [os_Process ?p ?w] =>
      destruct (os_Process p w) as [[[]|[]] ?] eqn:?
  | |- context [os_cmdline ?p ?w] =>
      destruct (os_cmdline p w) as [[?|[]] ?] eqn:?
  | |- context [os_name ?p ?w] =>
      destruct (os_name p w) as [[?|[]] ?] eqn:?
  | |- context [os_kill ?p ?w] =>
      destruct (os_kill p w) as [[[]|[]] ?] eqn:?
  | |- context [os_terminate ?p ?w] =>
      destruct (os_terminate p w) as [[[]|[]] ?] eqn:?
  | |- context [os_wait ?p ?t ?w] =>
      destruct (os_wait p t w) as [[[]|[]] ?] eqn:?
  end; cbn.

(** ** Strings *)

Section StringFacts.

Lemma startswith_spec (p s : string) :
  startswith p s = true <-> exists post, s = p ++ post.
Proof.
  revert s; induction p as [|a p IH]; intros s; simpl.
  - split; [intros _; now exists s | reflexivity].
  - destruct s as [|b s]; simpl.
    + split; [discriminate | intros [post H]; discriminate].
    + rewrite andb_true_iff, IH. split.
      * intros [Hab [post ->]]. apply Ascii.eqb_eq in Hab. subst b.
        now exists post.
      * intros [post H]. injection H as -> ->. split.
        -- apply Ascii.eqb_refl.
        -- now exists post.
Qed.

(** [needle in hay] is the substring relation. *)
Lemma str_in_spec (needle hay : string) :
  str_in needle hay = true <->
  exists pre post, hay = pre ++ needle ++ post.
Proof.
  induction hay as [|c hay IH]; simpl.
  - rewrite startswith_spec. split.
    + intros [post H]. now exists EmptyString, post.
    + intros [pre [post H]]. destruct pre as [|a pre]; simpl in H.
      * now exists post.
      * discriminate.
  - rewrite orb_true_iff, IH, startswith_spec. split.
    + intros [[post H] | [pre [post H]]].
      * now exists EmptyString, post.
      * exists (String c pre), post. simpl. now rewrite H.
    + intros [pre [post H]]. destruct pre as [|a pre]; simpl in H.
      * left. now exists post.
      * right. injection H as _ H. now exists pre, post.
Qed.

Lemma chars_lower (s : string) : chars (lower s) = map lower_char (chars s).
Proof. induction s as [|c s IH]; simpl; [reflexivity | now rewrite IH]. Qed.

Lemma chars_app (s t : string) : chars (s ++ t) = (chars s ++ chars t)%list.
Proof. induction s as [|c s IH]; simpl; [reflexivity | now rewrite IH]. Qed.

(** The first character of a substring occurs in the string. *)
Lemma str_in_head (a : ascii) (rest hay : string) :
  str_in (String a rest) hay = true -> In a (chars hay).
Proof.
  intros H. apply str_in_spec in H. destruct H as [pre [post ->]].
  rewrite chars_app. apply in_or_app. right. simpl. now left.
Qed.

Lemma truthy_app_char (word : string) (c : ascii) :
  truthy (word ++ String c EmptyString) = true.
Proof. destruct word; reflexivity. Qed.

(** A string with a character that is not white space splits into at
    least one word. *)
Lemma split_from_nonempty (s word : string) :
  truthy word = true \/ (exists x, In x (chars s) /\ isspace x = false) ->
  split_from word s <> [].
Proof.
  revert word; induction s as [|c s IH]; intros word H; simpl.
  - destruct H as [H | [x [[] _]]]. now rewrite H.
  - destruct (isspace c) eqn:Hc.
    + destruct (truthy word) eqn:Hw; [discriminate|].
      apply IH. right. destruct H as [H | [x [[-> | Hx] Hsp]]].
      * discriminate.
      * congruence.
      * now exists x.
    + apply IH. left. apply truthy_app_char.
Qed.

Lemma lower_char_space (x : ascii) : isspace x = true -> lower_char x = x.
Proof.
  destruct x as [[] [] [] [] [] [] [] []]; vm_compute; intros H;
    first [reflexivity | discriminate H].
Qed.

(** The guard of every [cmdline.split()[-1]]: a command line whose
    lower-cased form contains a word that starts with a visible
    character has at least one word, so the index is in range. *)
Lemma split_nonempty_of_word (a : ascii) (rest cmdline : string) :
  isspace a = false ->
  str_in (String a rest) (lower cmdline) = true ->
  split cmdline <> [].
Proof.
  intros Ha H. apply str_in_head in H. rewrite chars_lower in H.
  apply in_map_iff in H. destruct H as [x [Hx Hin]].
  apply split_from_nonempty. right. exists x. split; [assumption|].
  destruct (isspace x) eqn:Hsp; [|reflexivity].
  pose proof (lower_char_space _ Hsp) as Hfix. congruence.
Qed.

Lemma last_word_nodemon (cmdline : string) :
  str_in "nodemon" (lower cmdline) = true ->
  split cmdline <> [] /\ truthy cmdline = true.
Proof.
  intros H. split.
  - now apply (split_nonempty_of_word "n" "odemon").
  - destruct cmdline; [discriminate | reflexivity].
Qed.

Lemma last_word_ts_node (cmdline : string) :
  str_in "ts-node" (lower cmdline) = true ->
  split cmdline <> [] /\ truthy cmdline = true.
Proof.
  intros H. split.
  - now apply (split_nonempty_of_word "t" "s-node").
  - destruct cmdline; [discriminate | reflexivity].
Qed.

End StringFacts.

(** ** Classification *)

(** C2, as the code has it.  A port is a development port exactly when
    it lies in one of the six inclusive ranges 3000-3999, 4200-4299,
    5000-5999, 8000-8999, 5173-5173, 8080-8080; the bounds 3000, 3999,
    4200, 4299, 5173 and 8080 are inside, the neighbours 2999 and 4000 are
    outside, and 8081 is inside, since it lies in 8000-8999. *)
Theorem is_dev_port_ranges :
  (forall p : Z,
      is_dev_port p = true <->
      (3000 <= p <= 3999 \/ 4200 <= p <= 4299 \/ 5000 <= p <= 5999 \/
       8000 <= p <= 8999 \/ 5173 <= p <= 5173 \/ 8080 <= p <= 8080))
  /\ map is_dev_port [3000; 3999; 4200; 4299; 5173; 8080]
     = [true; true; true; true; true; true]
  /\ map is_dev_port [2999; 4000] = [false; false]
  /\ is_dev_port 8081 = true.
Proof.
  split; [|repeat split; reflexivity].
  intros p. unfold is_dev_port, DEV_PORT_RANGES. simpl.
  rewrite !orb_true_iff, !andb_true_iff, !Z.leb_le. intuition lia.
Qed.

(** C2, as stated, fails: it lists 8081 among the excluded neighbours,
    but 8081 lies in the range 8000-8999 and [is_dev_port 8081] is true. *)
Lemma is_dev_port_8081_not_excluded :
  ~ (is_dev_port 2999 = false /\ is_dev_port 4000 = false
     /\ is_dev_port 8081 = false).
Proof. intros [_ [_ H]]. vm_compute in H. discriminate H. Qed.

(** The ranges overlap: 5173 and 8080 have entries of their own inside
    5000-5999 and 8000-8999, and the PostgreSQL port 5432, which the
    docstring of [is_dev_port] gives as an example of [False], lies in
    5000-5999. *)
Lemma is_dev_port_5432 : is_dev_port 5432 = true.
Proof. reflexivity. Qed.

(** The value of [any] over the protected set does not depend on the order
    in which the set is traversed. *)
Lemma any_order_irrelevant (test : string -> bool) (l1 l2 : list string) :
  Permutation l1 l2 -> existsb test l1 = existsb test l2.
Proof.
  induction 1; simpl.
  - reflexivity.
  - now rewrite IHPermutation.
  - now rewrite !orb_assoc, (orb_comm (test y)).
  - congruence.
Qed.

(** C3.  A process name is protected exactly when its lower-cased form
    has one of postgres, postgresql, mysqld, mysql, redis-server, mongod,
    nginx, apache2 as a substring; "mysqld_safe" is protected. *)
Theorem protected_name_substring :
  (forall n : string,
      protected_name n = true <->
      exists protected : string,
        In protected ["postgres"; "postgresql"; "mysqld"; "mysql";
                      "redis-server"; "mongod"; "nginx"; "apache2"]
        /\ exists pre post : string, lower n = pre ++ protected ++ post)
  /\ protected_name "mysqld_safe" = true.
Proof.
  split; [|reflexivity].
  intros n. unfold protected_name, PROTECTED_PROCESSES.
  rewrite existsb_exists. split.
  - intros [x [Hin Hx]]. exists x. split; [assumption|].
    now apply str_in_spec.
  - intros [x [Hin Hx]]. exists x. split; [assumption|].
    now apply str_in_spec.
Qed.

(** ** Humanization *)

Lemma vscode_block_falls (cmdline name : string) :
  vscode_block cmdline name = None <-> vscode_pattern cmdline name = false.
Proof. unfold vscode_block, vscode_pattern. settle_guards. Qed.

Lemma electron_blocks_fall (cmdline name : string) :
  electron_utility_block cmdline name = None
  /\ electron_renderer_block cmdline name = None
  <-> electron_pattern cmdline = false.
Proof.
  unfold electron_utility_block, electron_renderer_block, electron_pattern.
  case_guards; split; intros H;
    first [ repeat split; reflexivity | discriminate H
          | destruct H as [H1 H2]; first [discriminate H1 | discriminate H2] ].
Qed.

Lemma node_block_falls (cmdline name : string) :
  node_block cmdline name = None <-> node_pattern cmdline name = false.
Proof. unfold node_block, node_pattern. settle_guards. Qed.

Lemma python_block_falls (cmdline name : string) :
  python_block cmdline name = None <-> python_pattern cmdline name = false.
Proof. unfold python_block, python_pattern. settle_guards. Qed.

Lemma java_block_falls (cmdline name : string) :
  java_block cmdline name = None <-> java_pattern cmdline name = false.
Proof. unfold java_block, java_pattern. settle_guards. Qed.

Lemma docker_block_falls (cmdline name : string) :
  docker_block cmdline name = None <-> docker_pattern name = false.
Proof. unfold docker_block, docker_pattern. settle_guards. Qed.

(** No pattern matches exactly when every block of the function falls
    through. *)
Lemma pattern_matches_false_iff (cmdline name : string) :
  pattern_matches cmdline name = false <->
  Forall (fun block => block cmdline name = None) humanize_blocks.
Proof.
  unfold pattern_matches, humanize_blocks.
  rewrite !orb_false_iff.
  rewrite <- vscode_block_falls, <- (electron_blocks_fall cmdline name),
    <- node_block_falls, <- python_block_falls, <- java_block_falls,
    <- (docker_block_falls cmdline name).
  split.
  - intros [[[[[Hv [Hu Hr]] Hn] Hp] Hj] Hd]. repeat constructor; assumption.
  - intros H.
    repeat match goal with
           | H : Forall _ (_ :: _) |- _ => inversion H; subst; clear H
           end.
    repeat split; assumption.
Qed.

Lemma first_return_fallback (blocks : list (string -> string -> option string))
    (cmdline name fallback : string) :
  Forall (fun block => block cmdline name = None) blocks ->
  first_return blocks cmdline name fallback = fallback.
Proof.
  induction 1 as [|block rest Hb _ IH]; simpl.
  - reflexivity.
  - now rewrite Hb.
Qed.

(** When a pattern matches, the label comes from a block: it does not
    depend on what the fall-through value would be. *)
Lemma first_return_label (cmdline name : string) :
  pattern_matches cmdline name = true ->
  forall fallback1 fallback2,
    first_return humanize_blocks cmdline name fallback1
    = first_return humanize_blocks cmdline name fallback2.
Proof.
  intros H f1 f2.
  assert (Hex : Exists (fun block => block cmdline name <> None) humanize_blocks).
  { apply Exists_exists.
    destruct (existsb (fun block => match block cmdline name with
                                    | Some _ => true | None => false end)
                      humanize_blocks) eqn:He.
    - apply existsb_exists in He. destruct He as [b [Hin Hb]].
      exists b. split; [assumption|]. destruct (b cmdline name); congruence.
    - exfalso. assert (pattern_matches cmdline name = false); [|congruence].
      apply pattern_matches_false_iff. apply Forall_forall. intros b Hin.
      destruct (b cmdline name) eqn:Hb; [|reflexivity].
      assert (existsb (fun block => match block cmdline name with
                                    | Some _ => true | None => false end)
                      humanize_blocks = true); [|congruence].
      apply existsb_exists. exists b. split; [assumption|]. now rewrite Hb. }
  induction Hex as [block rest Hb | block rest _ IH]; simpl.
  - destruct (block cmdline name); [reflexivity | congruence].
  - destruct (block cmdline name); [reflexivity | exact IH].
Qed.

(** The two humanization scenarios of the specification. *)
Example humanize_django :
  _humanize_cmdline "python3 manage.py runserver 0.0.0.0:8000" "python3"
  = "Django Dev Server".
Proof. reflexivity. Qed.

Example humanize_unrecognized :
  _humanize_cmdline "myservice --config=/etc/x.conf" "myservice"
  = "myservice --config=/etc/x.conf".
Proof. reflexivity. Qed.

(** C8.  [_humanize_cmdline] is a function of its two arguments alone:
    equal arguments give equal labels.  When no pattern of its check
    sequence matches, it returns the command line unchanged, and so
    humanizing the result again changes nothing. *)
Theorem humanize_deterministic_fallthrough :
  forall (cmdline1 name1 cmdline2 name2 : string),
    cmdline1 = cmdline2 -> name1 = name2 ->
    _humanize_cmdline cmdline1 name1 = _humanize_cmdline cmdline2 name2
    /\ (pattern_matches cmdline1 name1 = false ->
        _humanize_cmdline cmdline1 name1 = cmdline1
        /\ _humanize_cmdline (_humanize_cmdline cmdline1 name1) name1
           = _humanize_cmdline cmdline1 name1).
Proof.
  intros c1 n1 c2 n2 <- <-. split; [reflexivity|].
  intros H.
  assert (Hc : _humanize_cmdline c1 n1 = c1).
  { unfold _humanize_cmdline. apply first_return_fallback.
    now apply pattern_matches_false_iff. }
  split; [exact Hc|]. now rewrite !Hc.
Qed.

(** C8 at the command line "myservice --config=/etc/x.conf" of the
    specification, which no pattern matches. *)
Lemma humanize_deterministic_fallthrough_witness :
  pattern_matches "myservice --config=/etc/x.conf" "myservice" = false
  /\ _humanize_cmdline "myservice --config=/etc/x.conf" "myservice"
     = "myservice --config=/etc/x.conf"
  /\ _humanize_cmdline
       (_humanize_cmdline "myservice --config=/etc/x.conf" "myservice")
       "myservice"
     = _humanize_cmdline "myservice --config=/etc/x.conf" "myservice".
Proof.
  split; [reflexivity|].
  apply (humanize_deterministic_fallthrough
           "myservice --config=/etc/x.conf" "myservice"
           "myservice --config=/etc/x.conf" "myservice"
           eq_refl eq_refl).
  reflexivity.
Defined.

(** ** Sorting *)

Section Sorting.

Context {A : Type} (key : A -> Z).

Lemma insert_by_perm (x : A) (l : list A) :
  Permutation (x :: l) (insert_by key x l).
Proof.
  induction l as [|y t IH]; simpl.
  - apply Permutation_refl.
  - destruct (key x <=? key y).
    + apply Permutation_refl.
    + eapply perm_trans; [apply perm_swap|]. now apply perm_skip.
Qed.

Lemma sorted_perm (l : list A) : Permutation l (sorted key l).
Proof.
  induction l as [|x t IH]; simpl.
  - apply perm_nil.
  - eapply perm_trans; [apply perm_skip, IH | apply insert_by_perm].
Qed.

Lemma insert_by_head (x y : A) (l : list A) :
  key y <= key x ->
  HdRel (fun a b => key a <= key b) y l ->
  HdRel (fun a b => key a <= key b) y (insert_by key x l).
Proof.
  intros Hyx Hhd. destruct l as [|z t]; simpl.
  - now constructor.
  - destruct (key x <=? key z); constructor; [assumption|].
    now inversion Hhd.
Qed.

Lemma insert_by_ascending (x : A) (l : list A) :
  ascending key l -> ascending key (insert_by key x l).
Proof.
  unfold ascending. induction 1 as [|y t Hs IH Hhd]; simpl.
  - repeat constructor.
  - destruct (key x <=? key y) eqn:Hle.
    + apply Z.leb_le in Hle. repeat constructor; assumption.
    + apply Z.leb_gt in Hle. constructor; [exact IH|].
      apply insert_by_head; [lia | assumption].
Qed.

Lemma sorted_ascending (l : list A) : ascending key (sorted key l).
Proof.
  induction l as [|x t IH]; simpl.
  - constructor.
  - now apply insert_by_ascending.
Qed.

(** Insertion leaves the items of every key in the order they had, the
    inserted one first among its equals. *)
Lemma insert_by_filter (k : Z) (x : A) (l : list A) :
  filter (fun a => key a =? k) (insert_by key x l)
  = filter (fun a => key a =? k) (x :: l).
Proof.
  induction l as [|y t IH].
  - reflexivity.
  - cbn [insert_by]. destruct (key x <=? key y) eqn:Hle; [reflexivity|].
    apply Z.leb_gt in Hle.
    cbn [filter] in *. rewrite IH.
    destruct (key x =? k) eqn:Hx; [|reflexivity].
    destruct (key y =? k) eqn:Hy; [|reflexivity].
    apply Z.eqb_eq in Hx, Hy. lia.
Qed.

(** [sorted] is stable. *)
Lemma sorted_stable (k : Z) (l : list A) :
  filter (fun a => key a =? k) (sorted key l)
  = filter (fun a => key a =? k) l.
Proof.
  induction l as [|x t IH].
  - reflexivity.
  - cbn [sorted]. rewrite insert_by_filter. cbn [filter]. now rewrite IH.
Qed.

Lemma sorted_Forall (P : A -> Prop) (l : list A) :
  Forall P l -> Forall P (sorted key l).
Proof.
  intros H. eapply Permutation_Forall; [apply sorted_perm | exact H].
Qed.

(** A stable ascending arrangement of a list is unique: what [sorted]
    returns is the only list that is ascending and keeps, for every
    key, the items of that key in their order. *)
Lemma ascending_stable_unique (l1 l2 : list A) :
  ascending key l1 -> ascending key l2 ->
  (forall k, filter (fun a => key a =? k) l1
             = filter (fun a => key a =? k) l2) ->
  l1 = l2.
Proof.
  unfold ascending. intros H1 H2.
  apply Sorted_StronglySorted in H1; [|intros a b c; lia].
  apply Sorted_StronglySorted in H2; [|intros a b c; lia].
  revert l2 H2. induction H1 as [|x t1 Hs1 IH Hx]; intros l2 H2 Hf.
  - destruct l2 as [|y t2]; [reflexivity|].
    specialize (Hf (key y)). cbn [filter] in Hf.
    rewrite Z.eqb_refl in Hf. discriminate Hf.
  - destruct H2 as [|y t2 Hs2 Hy].
    + specialize (Hf (key x)). cbn [filter] in Hf.
      rewrite Z.eqb_refl in Hf. discriminate Hf.
    + assert (Hin : forall (a : A) l (u : list A),
                 filter (fun b => key b =? key a) l = a :: u -> In a l).
      { intros a l u E.
        assert (Hi : In a (filter (fun b => key b =? key a) l))
          by (rewrite E; now left).
        now apply filter_In in Hi. }
      assert (Hkey : key x = key y).
      { pose proof (Hf (key x)) as Fx. pose proof (Hf (key y)) as Fy.
        cbn [filter] in Fx, Fy. rewrite Z.eqb_refl in Fx, Fy.
        destruct (key y =? key x) eqn:Eyx; [apply Z.eqb_eq in Eyx; lia|].
        destruct (key x =? key y) eqn:Exy; [apply Z.eqb_eq in Exy; lia|].
        symmetry in Fx. apply Hin in Fx. apply Hin in Fy.
        rewrite Forall_forall in Hx, Hy.
        specialize (Hx _ Fy). specialize (Hy _ Fx). lia. }
      assert (Hxy : x = y).
      { specialize (Hf (key x)). cbn [filter] in Hf.
        rewrite <- Hkey, Z.eqb_refl in Hf. now injection Hf. }
      subst y. f_equal. apply IH; [assumption|].
      intros k. specialize (Hf k). cbn [filter] in Hf.
      destruct (key x =? k); [now injection Hf | assumption].
Qed.

End Sorting.

(** ** Enumeration *)

Section Enumeration.

Context {World : Type} {os : Psutil World}.

(** A turn of the loop leaves the list as it is or appends one finding
    of the connection. *)
Lemma visit_returns (conn : sconn) (ports ports' : list PortProcess)
    (w w' : World) (log : list event) :
  visit conn ports w = (Returned ports', log, w') ->
  ports' = ports
  \/ exists f, ports' = (ports ++ [f])%list /\ finding_of conn f.
Proof.
  unfold visit. intros H.
  destruct (String.eqb (conn_status conn) "LISTEN") eqn:Hst; simpl in H;
    [|left; unfold ret in H; congruence].
  apply String.eqb_eq in Hst.
  destruct (conn_laddr conn) as [laddr|] eqn:Hla;
    [|left; unfold ret in H; congruence].
  destruct (addr_port laddr =? 0) eqn:Hport;
    [left; unfold ret in H; congruence|].
  apply Z.eqb_neq in Hport.
  destruct (conn_pid conn) as [cpid|] eqn:Hpid;
    [|left; run_unfold; congruence].
  destruct (cpid =? 0) eqn:Hz; [left; run_unfold; congruence|].
  apply Z.eqb_neq in Hz.
  run_unfold. repeat os_step H; try discriminate H;
    inversion H; subst; clear H; try (now left).
  right. eexists. split; [reflexivity|].
  unfold finding_of, make_port_proc; cbn.
  repeat split; try assumption; try reflexivity.
  exists laddr. repeat split; assumption.
Qed.

(** A connection with no pid, or with pid 0, is passed over: it adds
    no finding and no call is made for it. *)
Lemma visit_without_pid (conn : sconn) (ports : list PortProcess) (w : World) :
  conn_pid conn = None \/ conn_pid conn = Some 0 ->
  visit conn ports w = (Returned ports, [], w).
Proof.
  intros H. unfold visit.
  destruct (negb (String.eqb (conn_status conn) "LISTEN")); [reflexivity|].
  destruct (conn_laddr conn) as [laddr|]; [|reflexivity].
  destruct (addr_port laddr =? 0); [reflexivity|].
  destruct H as [-> | ->]; reflexivity.
Qed.

Lemma scan_returns (conns : list sconn) :
  forall (ports ports' : list PortProcess) (w w' : World) (log : list event),
    scan conns ports w = (Returned ports', log, w') ->
    exists found,
      ports' = (ports ++ found)%list
      /\ Forall (fun f => exists conn, In conn conns /\ finding_of conn f) found.
Proof.
  induction conns as [|conn rest IH]; intros ports ports' w w' log H.
  - cbn in H. injection H as <- _ _. exists []. split.
    + now rewrite app_nil_r.
    + constructor.
  - cbn [scan] in H. unfold bind in H.
    destruct (visit conn ports w) as [[[mid|e] l1] w1] eqn:Hv;
      [|discriminate H].
    destruct (scan rest mid w1) as [[r l2] w2] eqn:Hs.
    injection H as -> _ _.
    apply IH in Hs. destruct Hs as [found [-> Hfound]].
    assert (Hweak : Forall (fun f => exists c, In c (conn :: rest)
                                                /\ finding_of c f) found).
    { eapply Forall_impl; [|exact Hfound].
      intros f [c [Hin Hf]]. exists c. split; [now right | assumption]. }
    apply visit_returns in Hv. destruct Hv as [-> | [f [-> Hf]]].
    + now exists found.
    + exists (f :: found). split.
      * now rewrite <- app_assoc.
      * constructor; [|assumption]. exists conn. split; [now left | assumption].
Qed.

(** The connections that carry no pid can be dropped from the input: the
    loop does the same with and without them. *)
Lemma scan_drops_pidless (conns : list sconn) :
  forall (ports : list PortProcess) (w : World),
    scan conns ports w
    = scan (filter (fun conn => match conn_pid conn with
                                | Some p => negb (p =? 0)
                                | None => false
                                end) conns) ports w.
Proof.
  induction conns as [|conn rest IH]; intros ports w; [reflexivity|].
  cbn [filter].
  destruct (conn_pid conn) as [p|] eqn:Hp.
  - destruct (p =? 0) eqn:Hz; cbn [negb].
    + apply Z.eqb_eq in Hz. subst p. cbn [scan]. unfold bind.
      rewrite visit_without_pid by now right.
      rewrite IH. destruct (scan _ ports w) as [[r l] w']. reflexivity.
    + cbn [scan]. unfold bind.
      destruct (visit conn ports w) as [[[mid|e] l1] w1]; [|reflexivity].
      now rewrite IH.
  - cbn [scan]. unfold bind.
    rewrite visit_without_pid by now left.
    rewrite IH. destruct (scan _ ports w) as [[r l] w']. reflexivity.
Qed.

(** The list [get_listening_ports] returns is the sorted form of the
    list its loop built over the connections the host reported. *)
Lemma get_listening_ports_returns (w w' : World) (log : list event)
    (findings : list PortProcess) :
  get_listening_ports w = (Returned findings, log, w') ->
  exists conns w0 discovered l1,
    os_net_connections w = (Returned conns, w0)
    /\ scan conns [] w0 = (Returned discovered, l1, w')
    /\ findings = sorted port discovered.
Proof.
  unfold get_listening_ports. run_unfold. intros H.
  destruct (os_net_connections w) as [[conns|e] w0] eqn:Hnet;
    [|discriminate H].
  destruct (scan conns [] w0) as [[[discovered|e] l1] w1] eqn:Hscan;
    [|discriminate H].
  injection H as <- _ <-.
  now exists conns, w0, discovered, l1.
Qed.

(** Enumeration returns whenever the host reports its connections and
    process inspection raises nothing but the two exceptions the loop
    catches. *)
Lemma visit_total (conn : sconn) (ports : list PortProcess) (w : World) :
  (forall p v, fst (os_Process p v) <> Raised TimeoutExpired) ->
  (forall p v, fst (os_cmdline p v) <> Raised TimeoutExpired) ->
  (forall p v, fst (os_name p v) <> Raised TimeoutExpired) ->
  exists ports' log w', visit conn ports w = (Returned ports', log, w').
Proof.
  intros HP HC HN. unfold visit.
  destruct (negb (String.eqb (conn_status conn) "LISTEN"));
    [now eexists _, _, _|].
  destruct (conn_laddr conn) as [laddr|]; [|now eexists _, _, _].
  destruct (addr_port laddr =? 0); [now eexists _, _, _|].
  destruct (conn_pid conn) as [cpid|]; [|now eexists _, _, _].
  destruct (cpid =? 0); [now eexists _, _, _|].
  run_unfold.
  pose proof (HP cpid w) as HP1.
  destruct (os_Process cpid w) as [[[]|[]] w1]; cbn in HP1;
    try congruence; try (now eexists _, _, _).
  pose proof (HC cpid w1) as HC1.
  destruct (os_cmdline cpid w1) as [[args|[]] w2]; cbn in HC1;
    try congruence; try (now eexists _, _, _).
  pose proof (HN cpid w2) as HN1.
  destruct (os_name cpid w2) as [[name|[]] w3]; cbn in HN1;
    try congruence; now eexists _, _, _.
Qed.

Lemma scan_total (conns : list sconn) :
  (forall p v, fst (os_Process p v) <> Raised TimeoutExpired) ->
  (forall p v, fst (os_cmdline p v) <> Raised TimeoutExpired) ->
  (forall p v, fst (os_name p v) <> Raised TimeoutExpired) ->
  forall (ports : list PortProcess) (w : World),
  exists ports' log w', scan conns ports w = (Returned ports', log, w').
Proof.
  intros HP HC HN.
  induction conns as [|conn rest IH]; intros ports w.
  - now eexists _, _, _.
  - cbn [scan]. unfold bind.
    destruct (visit_total conn ports w HP HC HN) as [mid [l1 [w1 ->]]].
    destruct (IH mid w1) as [ports' [l2 [w2 ->]]].
    now eexists _, _, _.
Qed.

Lemma get_listening_ports_total (w w0 : World) (conns : list sconn) :
  os_net_connections w = (Returned conns, w0) ->
  (forall p v, fst (os_Process p v) <> Raised TimeoutExpired) ->
  (forall p v, fst (os_cmdline p v) <> Raised TimeoutExpired) ->
  (forall p v, fst (os_name p v) <> Raised TimeoutExpired) ->
  exists findings log w',
    get_listening_ports w = (Returned findings, log, w').
Proof.
  intros Hnet HP HC HN. unfold get_listening_ports. run_unfold.
  rewrite Hnet.
  destruct (scan_total conns HP HC HN [] w0) as [ports [l1 [w1 ->]]].
  now eexists _, _, _.
Qed.

End Enumeration.

(** C4.  Whatever connection list the host reports, and in whatever
    order, the list [get_listening_ports] returns is ascending by port,
    and the findings of any one port stand in the order in which the loop
    discovered them: it is the stable sort of the discovered list. *)
Theorem get_listening_ports_sorted_stable
    {World : Type} {os : Psutil World}
    (w w' : World) (log : list event) (findings : list PortProcess) :
  get_listening_ports w = (Returned findings, log, w') ->
  ascending port findings
  /\ exists conns w0 discovered l1,
       os_net_connections w = (Returned conns, w0)
       /\ scan conns [] w0 = (Returned discovered, l1, w')
       /\ Permutation discovered findings
       /\ forall p : Z,
            filter (fun f => port f =? p) findings
            = filter (fun f => port f =? p) discovered.
Proof.
  intros H. apply get_listening_ports_returns in H.
  destruct H as [conns [w0 [discovered [l1 [Hnet [Hscan ->]]]]]].
  split; [apply sorted_ascending|].
  exists conns, w0, discovered, l1.
  repeat split; try assumption.
  - apply sorted_perm.
  - intros p. apply sorted_stable.
Qed.

(** C4 on the demonstration host: the sockets are reported in the order
    8000, 5432, 3000, 22, ..., and port 3000 is held by pid 200 and,
    found later, by pid 700. *)
Lemma get_listening_ports_sorted_stable_witness :
  exists findings : list PortProcess,
    map (fun f => (port f, pid f)) findings
    = [(22, 100); (3000, 200); (3000, 700); (3001, 400);
       (5432, 300); (8000, 500); (8080, 600)]
    /\ ascending port findings
    /\ exists conns w0 discovered l1,
         os_net_connections Sim.demo = (Returned conns, w0)
         /\ scan conns [] w0 = (Returned discovered, l1, Sim.demo)
         /\ Permutation discovered findings
         /\ forall p : Z,
              filter (fun f => port f =? p) findings
              = filter (fun f => port f =? p) discovered.
Proof.
  eexists. split; cycle 1.
  - eapply (get_listening_ports_sorted_stable Sim.demo).
    vm_compute. reflexivity.
  - reflexivity.
Defined.

(** C10.  Every finding [get_listening_ports] returns has a pid other
    than 0: it was built from a reported connection that carries that
    pid, on that connection's port.  A connection with no pid or with
    pid 0 yields no finding. *)
Theorem get_listening_ports_pid_nonzero
    {World : Type} {os : Psutil World}
    (w w' : World) (log : list event) (findings : list PortProcess) :
  get_listening_ports w = (Returned findings, log, w') ->
  Forall (fun f => pid f <> 0) findings
  /\ exists conns w0,
       os_net_connections w = (Returned conns, w0)
       /\ Forall (fun f => exists conn laddr,
                      In conn conns
                      /\ conn_pid conn = Some (pid f)
                      /\ conn_laddr conn = Some laddr
                      /\ addr_port laddr = port f) findings.
Proof.
  intros H. apply get_listening_ports_returns in H.
  destruct H as [conns [w0 [discovered [l1 [Hnet [Hscan ->]]]]]].
  apply scan_returns in Hscan. destruct Hscan as [found [-> Hfound]].
  cbn [app] in *.
  split.
  - apply sorted_Forall. eapply Forall_impl; [|exact Hfound].
    intros f [conn [_ Hf]]. unfold finding_of in Hf. tauto.
  - exists conns, w0. split; [assumption|].
    apply sorted_Forall. eapply Forall_impl; [|exact Hfound].
    intros f [conn [Hin Hf]].
    destruct Hf as [_ [[laddr [Hla [_ Hport]]] [Hpid _]]].
    exists conn, laddr. repeat split; auto.
Qed.

(** C10 on the demonstration host, where port 3306 is reported with no
    pid and port 4200 with pid 0: neither port is listed. *)
Lemma get_listening_ports_pid_nonzero_witness :
  exists findings : list PortProcess,
    map (fun f => (port f, pid f)) findings
    = [(22, 100); (3000, 200); (3000, 700); (3001, 400);
       (5432, 300); (8000, 500); (8080, 600)]
    /\ Forall (fun f => pid f <> 0) findings
    /\ exists conns w0,
         os_net_connections Sim.demo = (Returned conns, w0)
         /\ Forall (fun f => exists conn laddr,
                        In conn conns
                        /\ conn_pid conn = Some (pid f)
                        /\ conn_laddr conn = Some laddr
                        /\ addr_port laddr = port f) findings.
Proof.
  eexists. split; cycle 1.
  - eapply (get_listening_ports_pid_nonzero Sim.demo).
    vm_compute. reflexivity.
  - reflexivity.
Defined.

(** ** Termination of one process *)

Section Termination.

Context {World : Type} {os : Psutil World}.

Ltac kill_unfold :=
  unfold kill_process, kill_process_body, kill_attempt; run_unfold.

(** Run with [force = true], the body never reaches its recursive call. *)
Lemma kill_process_body_forced (self1 self2 : Z -> bool -> M World bool)
    (pid : Z) (w : World) :
  kill_process_body self1 pid true w = kill_process_body self2 pid true w.
Proof. kill_unfold. repeat os_step_goal; reflexivity. Qed.

(** [kill_process] satisfies the recursive equation of the source. *)
Lemma kill_process_unfold (pid : Z) (force : bool) (w : World) :
  kill_process pid force w = kill_process_body kill_process pid force w.
Proof.
  destruct force.
  - apply kill_process_body_forced.
  - unfold kill_process at 1.
    unfold kill_process_body at 1 3. unfold try_except.
    destruct (kill_attempt pid false w) as [[[b|[]] l1] w1]; reflexivity.
Qed.

(** [kill_process] always returns: every exception of the host is
    caught. *)
Lemma kill_process_returns (pid : Z) (force : bool) (w : World) :
  exists b log w', kill_process pid force w = (Returned b, log, w').
Proof.
  kill_unfold. destruct force; repeat os_step_goal; now eexists _, _, _.
Qed.

(** Every call of a run of [kill_process] is about its pid. *)
Lemma kill_process_log_pid (pid : Z) (force : bool) (w w' : World)
    (r : outcome bool) (log : list event) :
  kill_process pid force w = (r, log, w') ->
  Forall (fun e => call_pid (ev_call e) = Some pid) log.
Proof.
  kill_unfold. intros H.
  destruct force; repeat os_step H; inversion H; subst;
    repeat constructor.
Qed.

(** If the process is gone at any point of the attempt, the result is
    success and nothing more is done. *)
Lemma kill_process_vanished (pid : Z) (force : bool) (w w1 : World)
    (l1 : list event) :
  kill_attempt pid force w = (Raised NoSuchProcess, l1, w1) ->
  kill_process pid force w = (Returned true, l1, w1).
Proof.
  unfold kill_process, kill_process_body, try_except. intros ->.
  cbn. now rewrite app_nil_r.
Qed.

(** If permission is denied at any point of the attempt, the result is
    failure and nothing more is done. *)
Lemma kill_process_denied (pid : Z) (force : bool) (w w1 : World)
    (l1 : list event) :
  kill_attempt pid force w = (Raised AccessDenied, l1, w1) ->
  kill_process pid force w = (Returned false, l1, w1).
Proof.
  unfold kill_process, kill_process_body, try_except. intros ->.
  cbn. now rewrite app_nil_r.
Qed.

(** In any run of [kill_process], a call that is refused is the last call
    of the run, and the run returns failure. *)
Lemma kill_process_denied_is_last (pid : Z) (force : bool) (w w' : World)
    (r : outcome bool) (pre post : list event) (e : event) :
  kill_process pid force w = (r, (pre ++ e :: post)%list, w') ->
  ev_error e = Some AccessDenied ->
  r = Returned false /\ post = [].
Proof.
  kill_unfold. intros H He.
  destruct force; repeat os_step H; inversion H; subst; clear H;
    repeat match goal with
           | H : _ = (?pre ++ _ :: _)%list |- _ =>
               destruct pre; cbn in H; inversion H; subst; clear H
           end;
    cbn in He; try discriminate He; split; reflexivity.
Qed.

(** At most one forced signal is sent in a run of [kill_process]. *)
Lemma kill_process_one_forced_signal (pid : Z) (force : bool) (w w' : World)
    (r : outcome bool) (log : list event) :
  kill_process pid force w = (r, log, w') ->
  (List.length (filter (fun e => is_forced_signal (ev_call e)) log) <= 1)%nat.
Proof.
  kill_unfold. intros H.
  destruct force; repeat os_step H; inversion H; subst; cbn; lia.
Qed.

End Termination.

(** C5.  [kill_process] on a pid for which the host has no process
    returns [True] without raising, with [force] false or true; it sends
    no signal. *)
Theorem kill_process_no_such_process
    {World : Type} {os : Psutil World}
    (pid : Z) (force : bool) (w w1 : World) :
  os_Process pid w = (Raised NoSuchProcess, w1) ->
  kill_process pid force w
  = (Returned true, [mkEvent (ProcessNew pid) (Some NoSuchProcess)], w1).
Proof.
  intros H. apply kill_process_vanished.
  unfold kill_attempt. run_unfold. now rewrite H.
Qed.

(** C5 on the demonstration host, which has no process 999. *)
Lemma kill_process_no_such_process_witness :
  kill_process 999 false Sim.demo
  = (Returned true, [mkEvent (ProcessNew 999) (Some NoSuchProcess)], Sim.demo)
  /\ kill_process 999 true Sim.demo
     = (Returned true, [mkEvent (ProcessNew 999) (Some NoSuchProcess)], Sim.demo).
Proof.
  split; apply kill_process_no_such_process; reflexivity.
Defined.

(** C6.  [kill_process] on a process the caller may not signal returns
    [False] without raising.  The refused signal is the last call of the
    run: with [force] false the only signal ever tried is the graceful
    one, and the forced one is not tried after the refusal. *)
Theorem kill_process_access_denied
    {World : Type} {os : Psutil World}
    (pid : Z) (force : bool) (w w1 w2 : World) :
  os_Process pid w = (Returned tt, w1) ->
  (if force then os_kill pid w1 else os_terminate pid w1)
  = (Raised AccessDenied, w2) ->
  exists log,
    kill_process pid force w = (Returned false, log, w2)
    /\ log = [mkEvent (ProcessNew pid) None;
              mkEvent (if force then ProcessKill pid else ProcessTerminate pid)
                      (Some AccessDenied)]
    /\ (force = false ->
        Forall (fun e => is_forced_signal (ev_call e) = false) log).
Proof.
  intros HP HS. eexists. split; [|split; [reflexivity|]].
  - apply kill_process_denied.
    unfold kill_attempt. run_unfold. rewrite HP.
    destruct force; rewrite HS; reflexivity.
  - intros ->. repeat constructor.
Qed.

(** C6 on the demonstration host, where process 600 belongs to another
    user. *)
Lemma kill_process_access_denied_witness :
  exists log,
    kill_process 600 false Sim.demo = (Returned false, log, Sim.demo)
    /\ log = [mkEvent (ProcessNew 600) None;
              mkEvent (ProcessTerminate 600) (Some AccessDenied)]
    /\ (false = false ->
        Forall (fun e => is_forced_signal (ev_call e) = false) log).
Proof.
  apply (kill_process_access_denied 600 false Sim.demo Sim.demo Sim.demo);
    reflexivity.
Defined.

(** C7.  When the signal is sent and the wait of 3 seconds times out:
    with [force] false the run goes on as [kill_process pid true] from the
    state reached, once, and returns what that call returns, so that at
    most one forced signal is sent; with [force] true the run ends there
    and returns [False]. *)
Theorem kill_process_escalates_once
    {World : Type} {os : Psutil World}
    (pid : Z) (force : bool) (w wa wb w1 : World) :
  os_Process pid w = (Returned tt, wa) ->
  (if force then os_kill pid wa else os_terminate pid wa) = (Returned tt, wb) ->
  os_wait pid 3 wb = (Raised TimeoutExpired, w1) ->
  let attempt :=
    [mkEvent (ProcessNew pid) None;
     mkEvent (if force then ProcessKill pid else ProcessTerminate pid) None;
     mkEvent (ProcessWait pid 3) (Some TimeoutExpired)] in
  if force
  then kill_process pid true w = (Returned false, attempt, w1)
  else exists (r : bool) (l2 : list event) (w2 : World),
      kill_process pid true w1 = (Returned r, l2, w2)
      /\ kill_process pid false w = (Returned r, (attempt ++ l2)%list, w2)
      /\ (List.length (filter (fun e => is_forced_signal (ev_call e))
                              (attempt ++ l2)) <= 1)%nat.
Proof.
  intros HP HS HW attempt. subst attempt. destruct force.
  - unfold kill_process, kill_process_body, kill_attempt. run_unfold.
    rewrite HP, HS, HW. reflexivity.
  - destruct (kill_process_returns pid true w1) as [r [l2 [w2 Hforced]]].
    exists r, l2, w2. split; [exact Hforced|].
    assert (Hrun : kill_process pid false w
                   = (Returned r,
                      ([mkEvent (ProcessNew pid) None;
                        mkEvent (ProcessTerminate pid) None;
                        mkEvent (ProcessWait pid 3) (Some TimeoutExpired)]
                         ++ l2)%list, w2)).
    { rewrite kill_process_unfold.
      unfold kill_process_body, kill_attempt. run_unfold.
      rewrite HP, HS, HW. cbn [negb]. now rewrite Hforced. }
    split; [exact Hrun|].
    apply (kill_process_one_forced_signal _ _ _ _ _ _ Hrun).
Qed.

(** C7 on the demonstration host: process 500 ignores the graceful
    signal and exits on the forced one; process 700 survives both. *)
Lemma kill_process_escalates_once_witness :
  (exists (r : bool) (l2 : list event) (w2 : Sim.host),
      kill_process 500 true Sim.demo = (Returned r, l2, w2)
      /\ kill_process 500 false Sim.demo
         = (Returned r,
            ([mkEvent (ProcessNew 500) None;
              mkEvent (ProcessTerminate 500) None;
              mkEvent (ProcessWait 500 3) (Some TimeoutExpired)] ++ l2)%list,
            w2)
      /\ (List.length
            (filter (fun e => is_forced_signal (ev_call e))
               ([mkEvent (ProcessNew 500) None;
                 mkEvent (ProcessTerminate 500) None;
                 mkEvent (ProcessWait 500 3) (Some TimeoutExpired)] ++ l2))
          <= 1)%nat)
  /\ kill_process 700 true Sim.demo
     = (Returned false,
        [mkEvent (ProcessNew 700) None;
         mkEvent (ProcessKill 700) None;
         mkEvent (ProcessWait 700 3) (Some TimeoutExpired)],
        Sim.demo).
Proof.
  split.
  - apply (kill_process_escalates_once 500 false
             Sim.demo Sim.demo Sim.demo Sim.demo); reflexivity.
  - apply (kill_process_escalates_once 700 true
             Sim.demo Sim.demo Sim.demo Sim.demo); reflexivity.
Defined.

(** ** Bulk termination *)

Section BulkTermination.

Context {World : Type} {os : Psutil World}.

Lemma kill_each_spec (force : bool) (dev_ports : list PortProcess) :
  forall (killed_count : Z) (w : World),
  exists (log : list event) (w' : World),
    kill_each force dev_ports killed_count w
    = (Returned (killed_count
                 + count_successes
                     (kill_answers force (map pid (unprotected dev_ports)) w)),
       log, w')
    /\ kill_each force (unprotected dev_ports) killed_count w
       = kill_each force dev_ports killed_count w
    /\ Forall (fun e => exists p, In p dev_ports
                                  /\ is_protected p = false
                                  /\ call_pid (ev_call e) = Some (pid p)) log.
Proof.
  induction dev_ports as [|p rest IH]; intros k w.
  - exists [], w. cbn. unfold ret, count_successes. cbn.
    rewrite Z.add_0_r. repeat split. constructor.
  - unfold unprotected in *. cbn [filter kill_each].
    destruct (is_protected p) eqn:Hp; cbn [negb].
    + destruct (IH k w) as [log [w' [Hrun [Hsame Hlog]]]].
      exists log, w'. repeat split; try assumption.
      eapply Forall_impl; [|exact Hlog].
      intros e [q [Hin Hq]]. exists q. split; [now right | assumption].
    + cbn [kill_each map kill_answers]. rewrite Hp. cbn [negb]. unfold bind.
      destruct (kill_process_returns (pid p) force w) as [ok [l1 [w1 Hkill]]].
      rewrite Hkill.
      destruct (IH (if ok then k + 1 else k) w1) as [l2 [w2 [Hrun [Hsame Hlog]]]].
      rewrite Hsame, Hrun.
      exists (l1 ++ l2)%list, w2. repeat split.
      * do 2 f_equal. f_equal. unfold count_successes. cbn [filter].
        destruct ok; cbn [List.length]; lia.
      * apply Forall_app. split.
        -- apply kill_process_log_pid in Hkill.
           eapply Forall_impl; [|exact Hkill].
           intros e He. exists p. repeat split; [now left | assumption..].
        -- eapply Forall_impl; [|exact Hlog].
           intros e [q [Hin Hq]]. exists q. split; [now right | assumption].
Qed.

(** The loop looks at the pid and the protection flag of a finding and
    at nothing else. *)
Lemma kill_each_same_targets (force : bool) (l1 l2 : list PortProcess) :
  Forall2 same_target l1 l2 ->
  forall (killed_count : Z) (w : World),
    kill_each force l1 killed_count w = kill_each force l2 killed_count w.
Proof.
  induction 1 as [|a b t1 t2 [_ [Hpid Hprot]] _ IH]; intros k w.
  - reflexivity.
  - cbn [kill_each]. rewrite Hpid, Hprot.
    destruct (is_protected b); cbn [negb]; [apply IH|].
    unfold bind. destruct (kill_process (pid b) force w) as [[[ok|e] l] w1];
      [|reflexivity].
    now rewrite IH.
Qed.

Lemma filter_dev_same_targets (l1 l2 : list PortProcess) :
  Forall2 same_target l1 l2 ->
  Forall2 same_target (filter (fun p => is_dev_port (port p)) l1)
                      (filter (fun p => is_dev_port (port p)) l2).
Proof.
  induction 1 as [|a b t1 t2 Hab _ IH]; cbn [filter].
  - constructor.
  - destruct Hab as [Hport Hrest]. rewrite Hport.
    destruct (is_dev_port (port b)); [constructor|]; try assumption.
    split; assumption.
Qed.

(** [kill_all_dev_ports] is the loop run on what [get_dev_ports]
    returns. *)
Lemma kill_all_dev_ports_run (force : bool) (w w0 : World)
    (dev_ports : list PortProcess) (l0 : list event) :
  get_dev_ports w = (Returned dev_ports, l0, w0) ->
  kill_all_dev_ports force w
  = (let '(r, log, w') := kill_each force dev_ports 0 w0 in
     (r, (l0 ++ log)%list, w')).
Proof.
  intros H. unfold kill_all_dev_ports, bind. now rewrite H.
Qed.

End BulkTermination.

(** C1.  For every list of development-port findings and every state of
    the host, the loop of [kill_all_dev_ports] returns, with [force] false
    or true; every call it makes is about the pid of a finding that is
    not protected; the protected findings could as well be absent; and the
    count returned is the number of calls of [kill_process], made in turn
    on the findings that are not protected, that returned [True].
    [kill_all_dev_ports] is that loop run on the findings of
    [get_dev_ports]. *)
Theorem kill_all_dev_ports_skips_protected
    {World : Type} {os : Psutil World}
    (force : bool) (dev_ports : list PortProcess) (w : World) :
  exists (killed : Z) (log : list event) (w' : World),
    kill_each force dev_ports 0 w = (Returned killed, log, w')
    /\ Forall (fun e => exists p, In p dev_ports
                                  /\ is_protected p = false
                                  /\ call_pid (ev_call e) = Some (pid p)) log
    /\ kill_each force (unprotected dev_ports) 0 w = (Returned killed, log, w')
    /\ killed = count_successes
                  (kill_answers force (map pid (unprotected dev_ports)) w)
    /\ forall (before : World) (l0 : list event),
         get_dev_ports before = (Returned dev_ports, l0, w) ->
         kill_all_dev_ports force before
         = (Returned killed, (l0 ++ log)%list, w').
Proof.
  destruct (kill_each_spec force dev_ports 0 w) as [log [w' [Hrun [Hsame Hlog]]]].
  rewrite Z.add_0_l in Hrun.
  eexists _, log, w'. split; [exact Hrun|].
  split; [exact Hlog|].
  split; [now rewrite Hsame|].
  split; [reflexivity|].
  intros before l0 Hdev.
  rewrite (kill_all_dev_ports_run force before w dev_ports l0 Hdev).
  now rewrite Hrun.
Qed.

(** C1 on the demonstration host: of the development ports 3000 (pids
    200 and 700), 3001 (mysqld, pid 400), 5432 (postgres, pid 300), 8000
    (pid 500) and 8080 (pid 600), the two protected ones are never
    touched, and two terminations succeed. *)
Lemma kill_all_dev_ports_skips_protected_witness :
  exists (killed : Z) (log l0 : list event) (w' : Sim.host),
    get_dev_ports Sim.demo = (Returned Sim.demo_dev_ports, l0, Sim.demo)
    /\ kill_all_dev_ports false Sim.demo
       = (Returned killed, (l0 ++ log)%list, w')
    /\ killed = 2
    /\ map pid Sim.demo_dev_ports = [200; 700; 400; 300; 500; 600]
    /\ map is_protected Sim.demo_dev_ports
       = [false; false; true; true; false; false]
    /\ existsb (fun e => match call_pid (ev_call e) with
                         | Some p => (p =? 400) || (p =? 300)
                         | None => false
                         end) log = false.
Proof.
  destruct (kill_all_dev_ports_skips_protected false Sim.demo_dev_ports Sim.demo)
    as [killed [log [w' [Hrun [_ [_ [Hcount Hall]]]]]]].
  exists killed, log.
  eexists. exists w'.
  split; [vm_compute; reflexivity|].
  split; [apply Hall; vm_compute; reflexivity|].
  split; [rewrite Hcount; vm_compute; reflexivity|].
  split; [reflexivity|].
  split; [reflexivity|].
  vm_compute in Hrun. inversion Hrun; subst. reflexivity.
Defined.

(** ** Humanization does not steer termination *)

Section Noninterference.

Context {World : Type} (os : Psutil World).
Variables answer1 answer2 : Z -> World -> outcome (list string) * World.
Hypothesis Halike : cmdline_alike answer1 answer2.

Let os1 : Psutil World := with_cmdline os answer1.
Let os2 : Psutil World := with_cmdline os answer2.

Lemma make_port_proc_same_target (conn : sconn) (lport cpid : Z)
    (args1 args2 : list string) (name : string) :
  same_target (make_port_proc conn lport cpid args1 name)
              (make_port_proc conn lport cpid args2 name).
Proof. repeat split. Qed.

Lemma visit_alike (conn : sconn) (ports1 ports2 : list PortProcess) (w : World) :
  Forall2 same_target ports1 ports2 ->
  listing_alike (@visit World os1 conn ports1 w) (@visit World os2 conn ports2 w).
Proof.
  intros Hports. unfold visit.
  destruct (negb (String.eqb (conn_status conn) "LISTEN")); [now cbn|].
  destruct (conn_laddr conn) as [laddr|]; [|now cbn].
  destruct (addr_port laddr =? 0); [now cbn|].
  destruct (conn_pid conn) as [cpid|]; [|now cbn].
  destruct (cpid =? 0); [now cbn|].
  run_unfold. cbn.
  destruct (os_Process cpid w) as [[[]|[]] w1]; cbn; try (now repeat split).
  destruct (Halike cpid w1) as [Herr Hstate].
  destruct (answer1 cpid w1) as [[a1|e1] wa];
    destruct (answer2 cpid w1) as [[a2|e2] wb];
    cbn in Herr, Hstate; try discriminate Herr; subst wb.
  - destruct (os_name cpid wa) as [[name|[]] w3]; cbn; try (now repeat split).
    repeat split. apply Forall2_app; [assumption|].
    constructor; [|constructor]. apply make_port_proc_same_target.
  - injection Herr as <-. destruct e1; cbn; now repeat split.
Qed.

Lemma scan_alike (conns : list sconn) :
  forall (ports1 ports2 : list PortProcess) (w : World),
    Forall2 same_target ports1 ports2 ->
    listing_alike (@scan World os1 conns ports1 w) (@scan World os2 conns ports2 w).
Proof.
  induction conns as [|conn rest IH]; intros ports1 ports2 w Hports.
  - now cbn.
  - cbn [scan]. unfold bind.
    pose proof (visit_alike conn ports1 ports2 w Hports) as Hv.
    unfold listing_alike in Hv.
    destruct (@visit World os1 conn ports1 w) as [[[m1|e1] l1] w1];
      destruct (@visit World os2 conn ports2 w) as [[[m2|e2] l2] w2];
      try contradiction.
    + destruct Hv as [Hm [<- <-]].
      pose proof (IH m1 m2 w1 Hm) as Hs. unfold listing_alike in Hs.
      destruct (@scan World os1 rest m1 w1) as [[[r1|x1] k1] v1];
        destruct (@scan World os2 rest m2 w1) as [[[r2|x2] k2] v2];
        try contradiction; cbn.
      * destruct Hs as [Hr [<- <-]]. now repeat split.
      * destruct Hs as [<- [<- <-]]. now repeat split.
    + exact Hv.
Qed.

Lemma insert_by_alike (x y : PortProcess) (l1 l2 : list PortProcess) :
  same_target x y -> Forall2 same_target l1 l2 ->
  Forall2 same_target (insert_by port x l1) (insert_by port y l2).
Proof.
  intros Hxy. induction 1 as [|a b t1 t2 Hab Ht IH]; cbn [insert_by].
  - constructor; [exact Hxy | constructor].
  - destruct Hxy as [Hport Hx]. pose proof Hab as [Hport' _].
    rewrite Hport, Hport'.
    destruct (port y <=? port b).
    + constructor; [split; assumption|]. constructor; assumption.
    + constructor; [assumption|]. apply IH.
Qed.

Lemma sorted_alike (l1 l2 : list PortProcess) :
  Forall2 same_target l1 l2 ->
  Forall2 same_target (sorted port l1) (sorted port l2).
Proof.
  induction 1 as [|a b t1 t2 Hab Ht IH]; cbn [sorted].
  - constructor.
  - now apply insert_by_alike.
Qed.

Lemma get_dev_ports_alike (w : World) :
  listing_alike (@get_dev_ports World os1 w) (@get_dev_ports World os2 w).
Proof.
  unfold get_dev_ports, get_listening_ports. run_unfold. cbn.
  destruct (os_net_connections w) as [[conns|e] w0]; cbn; [|now repeat split].
  pose proof (scan_alike conns [] [] w0 (Forall2_nil _)) as Hs.
  unfold listing_alike in Hs.
  destruct (@scan World os1 conns [] w0) as [[[r1|x1] k1] v1];
    destruct (@scan World os2 conns [] w0) as [[[r2|x2] k2] v2];
    try contradiction; cbn.
  - destruct Hs as [Hr [<- <-]]. repeat split.
    apply filter_dev_same_targets. now apply sorted_alike.
  - destruct Hs as [<- [<- <-]]. now repeat split.
Qed.

Lemma kill_all_dev_ports_alike (force : bool) (w : World) :
  @kill_all_dev_ports World os1 force w = @kill_all_dev_ports World os2 force w.
Proof.
  unfold kill_all_dev_ports, bind.
  pose proof (get_dev_ports_alike w) as Hd. unfold listing_alike in Hd.
  destruct (@get_dev_ports World os1 w) as [[[d1|e1] l1] w1];
    destruct (@get_dev_ports World os2 w) as [[[d2|e2] l2] w2];
    try contradiction.
  - destruct Hd as [Hd [<- <-]].
    change (@kill_each World os2) with (@kill_each World os1).
    now rewrite (kill_each_same_targets force d1 d2 Hd).
  - destruct Hd as [<- [<- <-]]. reflexivity.
Qed.

End Noninterference.

(** C9.  The command line, raw or humanized, has no part in
    classification or termination.  Two findings built from the same
    connection and process name with different command lines agree on
    port, pid and protection flag, and the flag is the protection test of
    the name.  The loop of [kill_all_dev_ports] run on two listings that
    agree finding by finding on port, pid and flag does the same on both.
    And two runs of [kill_all_dev_ports] on hosts that differ only in the
    command lines they report are equal: same count, same calls, same
    final state. *)
Theorem humanization_noninterference
    {World : Type} (os : Psutil World)
    (answer1 answer2 : Z -> World -> outcome (list string) * World)
    (force : bool) (w : World) :
  cmdline_alike answer1 answer2 ->
  (forall (conn : sconn) (lport cpid : Z) (args1 args2 : list string)
          (name : string),
      same_target (make_port_proc conn lport cpid args1 name)
                  (make_port_proc conn lport cpid args2 name)
      /\ is_protected (make_port_proc conn lport cpid args1 name)
         = protected_name name)
  /\ (forall listing1 listing2 : list PortProcess,
         Forall2 same_target listing1 listing2 ->
         kill_each force (filter (fun p => is_dev_port (port p)) listing1) 0 w
         = kill_each force (filter (fun p => is_dev_port (port p)) listing2) 0 w)
  /\ @kill_all_dev_ports World (with_cmdline os answer1) force w
     = @kill_all_dev_ports World (with_cmdline os answer2) force w.
Proof.
  intros Halike. split; [|split].
  - intros conn lport cpid args1 args2 name. split.
    + apply make_port_proc_same_target.
    + reflexivity.
  - intros l1 l2 H. apply kill_each_same_targets.
    now apply filter_dev_same_targets.
  - now apply kill_all_dev_ports_alike.
Qed.

(** C9 on the demonstration host and on the same host with every command
    line reported as an Electron utility process: the labels of the
    listings differ, the bulk termination does not. *)
Lemma humanization_noninterference_witness :
  let relabelled :=
    Sim.inspect (fun _ : Sim.proc => ["/proc/self/exe"; "--type=utility"]) in
  @kill_all_dev_ports Sim.host (with_cmdline Sim.sim_psutil os_cmdline)
    false Sim.demo
  = @kill_all_dev_ports Sim.host (with_cmdline Sim.sim_psutil relabelled)
      false Sim.demo.
Proof.
  intros relabelled.
  assert (Halike : cmdline_alike (@os_cmdline Sim.host Sim.sim_psutil) relabelled).
  { intros p h. subst relabelled. cbn. unfold Sim.inspect.
    destruct (Sim.find_proc p (Sim.procs h)); split; reflexivity. }
  destruct (humanization_noninterference Sim.sim_psutil
              os_cmdline relabelled false Sim.demo Halike) as [_ [_ Hruns]].
  exact Hruns.
Defined.

(** * Further properties of the port manager *)

(** ** Enumeration: what a finding is *)

Lemma length_take (n : nat) (s : string) :
  (String.length (take n s) <= n)%nat.
Proof.
  unfold take. revert s. induction n as [|n IH]; intros s.
  - destruct s; cbn; lia.
  - destruct s as [|c s]; cbn; [lia|]. specialize (IH s). lia.
Qed.

Lemma make_port_proc_well_formed (conn : sconn) (lport cpid : Z)
    (args : list string) (name : string) :
  conn_status conn = "LISTEN" -> lport <> 0 -> cpid <> 0 ->
  well_formed (make_port_proc conn lport cpid args name).
Proof.
  intros Hst Hport Hpid. unfold well_formed, make_port_proc; cbn.
  repeat split; try assumption.
  - destruct (conn_type conn =? 1); [now left | now right].
  - apply length_take.
Qed.

Section EnumerationFacts.

Context {World : Type} {os : Psutil World}.

(** A turn of the loop appends nothing, or the [PortProcess] built from
    the connection and from what the host answered about its process; it
    appends nothing for a connection that is not eligible. *)
Lemma visit_builds (conn : sconn) (ports ports' : list PortProcess)
    (w w' : World) (log : list event) :
  visit conn ports w = (Returned ports', log, w') ->
  ports' = ports
  \/ (eligible conn = true
      /\ exists laddr cpid args name,
           conn_laddr conn = Some laddr /\ conn_pid conn = Some cpid
           /\ ports' = (ports ++ [make_port_proc conn (addr_port laddr)
                                                 cpid args name])%list
           /\ well_formed (make_port_proc conn (addr_port laddr)
                                          cpid args name)).
Proof.
  unfold visit, eligible. intros H.
  destruct (String.eqb (conn_status conn) "LISTEN") eqn:Hst; cbn [negb] in H;
    [|left; unfold ret in H; congruence].
  apply String.eqb_eq in Hst.
  destruct (conn_laddr conn) as [laddr|] eqn:Hla;
    [|left; unfold ret in H; congruence].
  destruct (addr_port laddr =? 0) eqn:Hport;
    [left; unfold ret in H; congruence|].
  destruct (conn_pid conn) as [cpid|] eqn:Hpid;
    [|left; run_unfold; congruence].
  destruct (cpid =? 0) eqn:Hz; [left; run_unfold; congruence|].
  apply Z.eqb_neq in Hz, Hport.
  run_unfold. repeat os_step H; try discriminate H;
    inversion H; subst; clear H; try (now left).
  right. split; [reflexivity|].
  eexists laddr, cpid, _, _.
  split; [reflexivity|]. split; [reflexivity|]. split; [reflexivity|].
  apply make_port_proc_well_formed; assumption.
Qed.

Lemma scan_builds (conns : list sconn) :
  forall (ports ports' : list PortProcess) (w w' : World) (log : list event),
    scan conns ports w = (Returned ports', log, w') ->
    exists found,
      ports' = (ports ++ found)%list
      /\ Forall well_formed found
      /\ (List.length found <= List.length (filter eligible conns))%nat.
Proof.
  induction conns as [|conn rest IH]; intros ports ports' w w' log H.
  - cbn in H. inversion H; subst. exists []. rewrite app_nil_r.
    repeat split; [constructor | cbn; lia].
  - cbn [scan] in H. unfold bind in H.
    destruct (visit conn ports w) as [[[mid|e] l1] w1] eqn:Hv;
      [|discriminate H].
    destruct (scan rest mid w1) as [[r l2] w2] eqn:Hs.
    inversion H; subst; clear H.
    apply IH in Hs. destruct Hs as [found [-> [Hwf Hlen]]].
    apply visit_builds in Hv.
    destruct Hv as [-> | [Hel [laddr [cpid [args [name [_ [_ [-> Hf]]]]]]]]].
    + exists found. repeat split; try assumption.
      cbn [filter]. destruct (eligible conn); cbn [List.length]; lia.
    + eexists (_ :: found). rewrite <- app_assoc. split; [reflexivity|].
      split; [constructor; assumption|].
      cbn [filter]. rewrite Hel. cbn [List.length]. lia.
Qed.

(** Enumeration only reads: whatever its outcome, every call it made is
    an inspection. *)
Lemma visit_inspects (conn : sconn) (ports : list PortProcess) (w w' : World)
    (r : outcome (list PortProcess)) (log : list event) :
  visit conn ports w = (r, log, w') ->
  Forall (fun e => is_inspection (ev_call e) = true) log.
Proof.
  unfold visit. intros H.
  destruct (negb (String.eqb (conn_status conn) "LISTEN"));
    [unfold ret in H; inversion H; constructor|].
  destruct (conn_laddr conn) as [laddr|];
    [|unfold ret in H; inversion H; constructor].
  destruct (addr_port laddr =? 0);
    [unfold ret in H; inversion H; constructor|].
  destruct (conn_pid conn) as [cpid|];
    [|run_unfold; inversion H; constructor].
  destruct (cpid =? 0); [run_unfold; inversion H; constructor|].
  run_unfold. repeat os_step H; inversion H; subst; repeat constructor.
Qed.

Lemma scan_inspects (conns : list sconn) :
  forall (ports : list PortProcess) (w w' : World)
         (r : outcome (list PortProcess)) (log : list event),
    scan conns ports w = (r, log, w') ->
    Forall (fun e => is_inspection (ev_call e) = true) log.
Proof.
  induction conns as [|conn rest IH]; intros ports w w' r log H.
  - cbn in H. inversion H. constructor.
  - cbn [scan] in H. unfold bind in H.
    destruct (visit conn ports w) as [[[mid|e] l1] w1] eqn:Hv.
    + destruct (scan rest mid w1) as [[r2 l2] w2] eqn:Hs.
      inversion H; subst. apply Forall_app. split.
      * eapply visit_inspects; eassumption.
      * eapply IH; eassumption.
    + inversion H; subst. eapply visit_inspects; eassumption.
Qed.

Lemma get_listening_ports_inspects (w w' : World)
    (r : outcome (list PortProcess)) (log : list event) :
  get_listening_ports w = (r, log, w') ->
  Forall (fun e => is_inspection (ev_call e) = true) log.
Proof.
  unfold get_listening_ports. run_unfold. intros H.
  destruct (os_net_connections w) as [[conns|e] w0].
  - destruct (scan conns [] w0) as [[[ports|e] l1] w1] eqn:Hs;
      inversion H; subst; constructor; try reflexivity;
      try rewrite app_nil_r; eapply scan_inspects; eassumption.
  - inversion H; subst. repeat constructor.
Qed.

End EnumerationFacts.

Lemma ascending_filter {A : Type} (key : A -> Z) (keep : A -> bool)
    (l : list A) :
  ascending key l -> ascending key (filter keep l).
Proof.
  unfold ascending. intros H.
  apply Sorted_StronglySorted in H; [|intros a b c; lia].
  apply StronglySorted_Sorted.
  induction H as [|x t Hs IH Hx]; cbn [filter].
  - constructor.
  - destruct (keep x); [|exact IH].
    constructor; [exact IH|].
    rewrite Forall_forall in *. intros y Hy.
    apply filter_In in Hy. apply Hx. tauto.
Qed.

Lemma first_on_port_filter (wanted : Z) (l : list PortProcess) :
  first_on_port wanted l = first_with_port wanted l.
Proof.
  unfold first_with_port. induction l as [|f t IH]; cbn; [reflexivity|].
  destruct (port f =? wanted); [reflexivity | exact IH].
Qed.

Lemma first_with_port_none (wanted : Z) (l : list PortProcess) :
  first_with_port wanted l = None <-> Forall (fun f => port f <> wanted) l.
Proof.
  unfold first_with_port. induction l as [|f t IH]; cbn.
  - split; [constructor | reflexivity].
  - destruct (port f =? wanted) eqn:Hp; cbn.
    + apply Z.eqb_eq in Hp. split; [discriminate|].
      intros H. inversion H; subst. congruence.
    + apply Z.eqb_neq in Hp. rewrite IH. split.
      * intros H. now constructor.
      * intros H. now inversion H.
Qed.

Lemma first_with_port_some (wanted : Z) (l : list PortProcess) (f : PortProcess) :
  first_with_port wanted l = Some f ->
  port f = wanted
  /\ exists before after,
       l = (before ++ f :: after)%list
       /\ Forall (fun g => port g <> wanted) before.
Proof.
  unfold first_with_port. induction l as [|g t IH]; cbn; [discriminate|].
  destruct (port g =? wanted) eqn:Hp; cbn.
  - intros H. injection H as <-. apply Z.eqb_eq in Hp.
    split; [assumption|]. exists [], t. split; [reflexivity | constructor].
  - intros H. apply Z.eqb_neq in Hp.
    destruct (IH H) as [Hport [before [after [-> Hbefore]]]].
    split; [assumption|]. exists (g :: before), after.
    split; [reflexivity | now constructor].
Qed.

(** X1.  Every finding [get_listening_ports] returns is well formed: its
    status is LISTEN, its port and its pid are not 0, its protocol is TCP
    or UDP, its command line has at most 150 characters, and its
    protection flag is the protection test of its process name. *)
Theorem get_listening_ports_well_formed
    {World : Type} {os : Psutil World}
    (w w' : World) (log : list event) (findings : list PortProcess) :
  get_listening_ports w = (Returned findings, log, w') ->
  Forall well_formed findings.
Proof.
  intros H. apply get_listening_ports_returns in H.
  destruct H as [conns [w0 [discovered [l1 [_ [Hscan ->]]]]]].
  apply scan_builds in Hscan. destruct Hscan as [found [-> [Hwf _]]].
  apply sorted_Forall. exact Hwf.
Qed.

Lemma get_listening_ports_well_formed_witness :
  exists findings : list PortProcess,
    map (fun f => (port f, protocol f, String.length (cmdline f))) findings
    = [(22, "TCP", 17%nat); (3000, "TCP", 14%nat); (3000, "TCP", 13%nat);
       (3001, "TCP", 28%nat); (5432, "TCP", 32%nat); (8000, "TCP", 17%nat);
       (8080, "TCP", 26%nat)]
    /\ Forall well_formed findings.
Proof.
  eexists. split; cycle 1.
  - eapply (get_listening_ports_well_formed Sim.demo).
    vm_compute. reflexivity.
  - reflexivity.
Defined.

(** X2.  The listing has at most one finding for each connection that
    listens, has a local port other than 0 and carries a pid other than
    0, and none for the other connections: it is no longer than the list
    of those connections. *)
Theorem get_listening_ports_length
    {World : Type} {os : Psutil World}
    (w w' : World) (log : list event) (findings : list PortProcess) :
  get_listening_ports w = (Returned findings, log, w') ->
  exists conns w0,
    os_net_connections w = (Returned conns, w0)
    /\ (List.length findings <= List.length (filter eligible conns))%nat.
Proof.
  intros H. apply get_listening_ports_returns in H.
  destruct H as [conns [w0 [discovered [l1 [Hnet [Hscan ->]]]]]].
  exists conns, w0. split; [assumption|].
  apply scan_builds in Hscan. destruct Hscan as [found [-> [_ Hlen]]].
  cbn [app]. rewrite <- (Permutation_length (sorted_perm port found)).
  exact Hlen.
Qed.

Lemma get_listening_ports_length_witness :
  exists (findings : list PortProcess) (conns : list sconn) (w0 : Sim.host),
    List.length findings = 7%nat
    /\ List.length conns = 11%nat
    /\ List.length (filter eligible conns) = 8%nat
    /\ os_net_connections Sim.demo = (Returned conns, w0)
    /\ (List.length findings <= List.length (filter eligible conns))%nat.
Proof.
  assert (Hrun : exists findings log w',
             get_listening_ports Sim.demo = (Returned findings, log, w')
             /\ List.length findings = 7%nat).
  { eexists _, _, _. split; vm_compute; reflexivity. }
  destruct Hrun as [findings [log [w' [Hrun Hlen]]]].
  destruct (get_listening_ports_length Sim.demo w' log findings Hrun)
    as [conns [w0 [Hnet Hle]]].
  exists findings, conns, w0.
  cbn in Hnet. inversion Hnet; subst.
  repeat split; try assumption; reflexivity.
Defined.

(** X3.  Enumeration only reads the host: whatever their outcome,
    [get_listening_ports], [get_dev_ports] and [get_port_info] send no
    signal and wait for no process; all their calls are the connection
    query and the three inspections of a process. *)
Theorem enumeration_only_inspects
    {World : Type} {os : Psutil World} (w : World) :
  Forall (fun e => is_inspection (ev_call e) = true)
         (log_of (get_listening_ports w))
  /\ Forall (fun e => is_inspection (ev_call e) = true)
            (log_of (get_dev_ports w))
  /\ forall wanted : Z,
       Forall (fun e => is_inspection (ev_call e) = true)
              (log_of (get_port_info wanted w)).
Proof.
  assert (Hl : Forall (fun e => is_inspection (ev_call e) = true)
                      (log_of (get_listening_ports w))).
  { destruct (get_listening_ports w) as [[r log] w'] eqn:H.
    eapply get_listening_ports_inspects. exact H. }
  split; [exact Hl|]. split; [|intros wanted].
  - unfold get_dev_ports, bind, ret.
    destruct (get_listening_ports w) as [[[l|e] log] w']; cbn in *;
      try rewrite app_nil_r; exact Hl.
  - unfold get_port_info, bind, ret.
    destruct (get_listening_ports w) as [[[l|e] log] w']; cbn in *;
      try rewrite app_nil_r; exact Hl.
Qed.

(** X4.  [get_dev_ports] returns exactly when [get_listening_ports]
    does, after the same calls, and its list is the listing restricted
    to the development ports, in the same order: it is ascending by
    port, every finding of it is on a development port, and a listed
    finding is in it exactly when its port is a development port. *)
Theorem get_dev_ports_is_filtered_listing
    {World : Type} {os : Psutil World}
    (w w' : World) (log : list event) (dev_ports : list PortProcess) :
  get_dev_ports w = (Returned dev_ports, log, w') ->
  exists listing,
    get_listening_ports w = (Returned listing, log, w')
    /\ dev_ports = filter (fun p => is_dev_port (port p)) listing
    /\ ascending port dev_ports
    /\ Forall (fun f => is_dev_port (port f) = true) dev_ports
    /\ forall f, In f dev_ports <-> In f listing /\ is_dev_port (port f) = true.
Proof.
  unfold get_dev_ports, bind, ret. intros H.
  destruct (get_listening_ports w) as [[[listing|e] l0] w0] eqn:Hl;
    [|discriminate H].
  inversion H; subst; clear H. rewrite app_nil_r.
  exists listing. split; [reflexivity|]. split; [reflexivity|].
  apply get_listening_ports_returns in Hl.
  destruct Hl as [conns [w1 [discovered [l1 [_ [_ ->]]]]]].
  split; [apply ascending_filter, sorted_ascending|].
  split.
  - apply Forall_forall. intros f Hf. now apply filter_In in Hf.
  - intros f. apply filter_In.
Qed.

Lemma get_dev_ports_is_filtered_listing_witness :
  exists dev_ports listing : list PortProcess,
    map port listing = [22; 3000; 3000; 3001; 5432; 8000; 8080]
    /\ map port dev_ports = [3000; 3000; 3001; 5432; 8000; 8080]
    /\ dev_ports = filter (fun p => is_dev_port (port p)) listing
    /\ ascending port dev_ports
    /\ Forall (fun f => is_dev_port (port f) = true) dev_ports.
Proof.
  assert (Hrun : exists dev_ports log w',
             get_dev_ports Sim.demo = (Returned dev_ports, log, w')
             /\ map port dev_ports = [3000; 3000; 3001; 5432; 8000; 8080]).
  { eexists _, _, _. split; vm_compute; reflexivity. }
  destruct Hrun as [dev_ports [log [w' [Hrun Hports]]]].
  destruct (get_dev_ports_is_filtered_listing Sim.demo w' log dev_ports Hrun)
    as [listing [Hl [Hf [Hasc [Hdev _]]]]].
  exists dev_ports, listing.
  vm_compute in Hl. inversion Hl; subst listing.
  repeat split; try assumption; reflexivity.
Defined.

(** ** Lookup and termination by port *)

(** X5.  [get_port_info] returns the first finding the loop discovered on
    the wanted port, and [None] exactly when it discovered none there; a
    finding it returns is on the wanted port and well formed. *)
Theorem get_port_info_first_discovered
    {World : Type} {os : Psutil World}
    (wanted : Z) (w w' : World) (log : list event) (r : option PortProcess) :
  get_port_info wanted w = (Returned r, log, w') ->
  exists conns w0 discovered l1,
    os_net_connections w = (Returned conns, w0)
    /\ scan conns [] w0 = (Returned discovered, l1, w')
    /\ r = first_with_port wanted discovered
    /\ (r = None <-> Forall (fun f => port f <> wanted) discovered)
    /\ forall f, r = Some f -> port f = wanted /\ well_formed f.
Proof.
  unfold get_port_info, bind, ret. intros H.
  destruct (get_listening_ports w) as [[[listing|e] l0] w0] eqn:Hl;
    [|discriminate H].
  inversion H; subst; clear H.
  apply get_listening_ports_returns in Hl.
  destruct Hl as [conns [w1 [discovered [l1 [Hnet [Hscan ->]]]]]].
  exists conns, w1, discovered, l1.
  assert (Hfirst : first_on_port wanted (sorted port discovered)
                   = first_with_port wanted discovered).
  { rewrite first_on_port_filter. unfold first_with_port.
    now rewrite sorted_stable. }
  rewrite Hfirst.
  split; [assumption|]. split; [assumption|]. split; [reflexivity|].
  split; [apply first_with_port_none|].
  intros f Hf. split.
  - now apply first_with_port_some in Hf.
  - apply scan_builds in Hscan. destruct Hscan as [found [-> [Hwf _]]].
    cbn [app] in Hf. unfold first_with_port in Hf.
    assert (Hin : In f (filter (fun g => port g =? wanted) found)).
    { destruct (filter (fun g => port g =? wanted) found); cbn in Hf;
        [discriminate | injection Hf as ->; now left]. }
    apply filter_In in Hin. rewrite Forall_forall in Hwf. now apply Hwf.
Qed.

(** X5 on the demonstration host: port 3000 is held by pids 200 and 700,
    and the lookup answers with the one found first. *)
Lemma get_port_info_first_discovered_witness :
  exists (f : PortProcess) (discovered : list PortProcess),
    pid f = 200
    /\ map (fun g => (port g, pid g)) discovered
       = [(8000, 500); (5432, 300); (3000, 200); (22, 100);
          (3001, 400); (8080, 600); (3000, 700)]
    /\ Some f = first_with_port 3000 discovered
    /\ port f = 3000 /\ well_formed f.
Proof.
  assert (Hrun : exists f log w',
             get_port_info 3000 Sim.demo = (Returned (Some f), log, w')
             /\ pid f = 200).
  { eexists _, _, _. split; vm_compute; reflexivity. }
  destruct Hrun as [f [log [w' [Hrun Hpid]]]].
  destruct (get_port_info_first_discovered 3000 Sim.demo w' log (Some f) Hrun)
    as [conns [w0 [discovered [l1 [Hnet [Hscan [Hr [_ Hsome]]]]]]]].
  exists f, discovered.
  cbn in Hnet. inversion Hnet; subst conns w0.
  vm_compute in Hscan. inversion Hscan; subst discovered.
  destruct (Hsome f eq_refl) as [Hport Hwf].
  split; [exact Hpid|]. split; [reflexivity|]. split; [exact Hr|].
  split; [exact Hport | exact Hwf].
Defined.

(** X6.  When no listed finding is on the wanted port, [kill_port]
    returns [False] after the enumeration alone: it sends no signal and
    waits for no process. *)
Theorem kill_port_absent
    {World : Type} {os : Psutil World}
    (wanted : Z) (force : bool) (w w0 : World) (l0 : list event)
    (listing : list PortProcess) :
  get_listening_ports w = (Returned listing, l0, w0) ->
  Forall (fun f => port f <> wanted) listing ->
  kill_port wanted force w = (Returned false, l0, w0)
  /\ Forall (fun e => is_inspection (ev_call e) = true) l0.
Proof.
  intros Hl Habs. split.
  - unfold kill_port, bind. rewrite Hl, first_on_port_filter.
    apply first_with_port_none in Habs. rewrite Habs.
    cbn. now rewrite app_nil_r.
  - eapply get_listening_ports_inspects. exact Hl.
Qed.

Lemma kill_port_absent_witness :
  exists (l0 : list event),
    kill_port 9999 true Sim.demo = (Returned false, l0, Sim.demo)
    /\ Forall (fun e => is_inspection (ev_call e) = true) l0.
Proof.
  eexists.
  eapply (kill_port_absent 9999 true Sim.demo Sim.demo).
  - vm_compute. reflexivity.
  - vm_compute. repeat constructor; discriminate.
Defined.

(** X7.  When a listed finding is on the wanted port, [kill_port] runs
    [kill_process] on the pid of the first such finding of the listing,
    from the state the enumeration reached, and returns its answer.  It
    does so whether or not the finding is protected, and every signal and
    wait of the run is about that one pid, also when other findings are
    on the same port. *)
Theorem kill_port_first_listener
    {World : Type} {os : Psutil World}
    (wanted : Z) (force : bool) (w w0 : World) (l0 : list event)
    (listing : list PortProcess) (f : PortProcess) :
  get_listening_ports w = (Returned listing, l0, w0) ->
  first_with_port wanted listing = Some f ->
  exists (ok : bool) (l1 : list event) (w1 : World),
    kill_process (pid f) force w0 = (Returned ok, l1, w1)
    /\ kill_port wanted force w = (Returned ok, (l0 ++ l1)%list, w1)
    /\ Forall (fun e => is_inspection (ev_call e) = false ->
                        call_pid (ev_call e) = Some (pid f)) (l0 ++ l1).
Proof.
  intros Hl Hf.
  destruct (kill_process_returns (pid f) force w0) as [ok [l1 [w1 Hk]]].
  exists ok, l1, w1. split; [exact Hk|]. split.
  - unfold kill_port, bind. rewrite Hl, first_on_port_filter, Hf, Hk.
    reflexivity.
  - apply Forall_app. split.
    + apply get_listening_ports_inspects in Hl.
      eapply Forall_impl; [|exact Hl]. cbn. intros e He Hn. congruence.
    + apply kill_process_log_pid in Hk.
      eapply Forall_impl; [|exact Hk]. cbn. intros e He _. exact He.
Qed.

(** X7 on the demonstration host: [kill_port 5432] terminates postgres,
    which is protected. *)
Lemma kill_port_first_listener_witness :
  exists (f : PortProcess) (l0 l1 : list event) (w1 : Sim.host),
    pid f = 300 /\ is_protected f = true
    /\ kill_process 300 false Sim.demo = (Returned true, l1, w1)
    /\ kill_port 5432 false Sim.demo = (Returned true, (l0 ++ l1)%list, w1)
    /\ Forall (fun e => is_inspection (ev_call e) = false ->
                        call_pid (ev_call e) = Some 300) (l0 ++ l1).
Proof.
  assert (Hrun : exists listing l0 f,
             get_listening_ports Sim.demo = (Returned listing, l0, Sim.demo)
             /\ first_with_port 5432 listing = Some f
             /\ pid f = 300 /\ is_protected f = true).
  { eexists _, _, _. split; [vm_compute; reflexivity|].
    split; [vm_compute; reflexivity|]. split; reflexivity. }
  destruct Hrun as [listing [l0 [f [Hl [Hf [Hpid Hprot]]]]]].
  destruct (kill_port_first_listener 5432 false Sim.demo Sim.demo l0 listing f
              Hl Hf) as [ok [l1 [w1 [Hk [Hp Hlog]]]]].
  exists f, l0, l1, w1. rewrite Hpid in Hk, Hlog.
  assert (Hok : ok = true).
  { vm_compute in Hk. inversion Hk. reflexivity. }
  subst ok. repeat split; assumption.
Defined.

(** ** Enumeration: failures *)

(** X8.  When the inspection of the process of an eligible connection
    raises [NoSuchProcess] or [AccessDenied], at the lookup, at the
    command line or at the name, the connection is left out and the loop
    goes on with the next connection from the state reached; when it
    succeeds, the finding built from its answers is appended. *)
Theorem scan_skips_failed_inspection
    {World : Type} {os : Psutil World}
    (conn : sconn) (rest : list sconn) (ports : list PortProcess)
    (laddr : addr) (cpid : Z) (w : World) :
  eligible conn = true ->
  conn_laddr conn = Some laddr ->
  conn_pid conn = Some cpid ->
  scan (conn :: rest) ports w
  = match inspect_process cpid w with
    | (Returned (args, name), l, w1) =>
        let '(r, l2, w2) :=
          scan rest (ports ++ [make_port_proc conn (addr_port laddr)
                                              cpid args name]) w1 in
        (r, (l ++ l2)%list, w2)
    | (Raised TimeoutExpired, l, w1) => (Raised TimeoutExpired, l, w1)
    | (Raised _, l, w1) =>
        let '(r, l2, w2) := scan rest ports w1 in (r, (l ++ l2)%list, w2)
    end.
Proof.
  unfold eligible. intros Hel Hla Hpid. rewrite Hla, Hpid in Hel.
  apply andb_true_iff in Hel. destruct Hel as [Hel Hz].
  apply andb_true_iff in Hel. destruct Hel as [Hst Hport].
  cbn [scan]. unfold bind at 1. unfold visit.
  rewrite Hst, Hla, Hpid. cbn [negb].
  apply negb_true_iff in Hport, Hz. rewrite Hport, Hz.
  unfold inspect_process. run_unfold.
  repeat os_step_goal; cbn;
    repeat match goal with
           | |- context [scan ?c ?p ?v] =>
               destruct (scan c p v) as [[? ?] ?]
           end;
    cbn; rewrite ?app_nil_r; reflexivity.
Qed.

(** X8 on the demonstration host: the owner of the socket on port 5000
    is gone, and the loop goes on without it. *)
Lemma scan_skips_failed_inspection_witness :
  scan [Sim.listen 5000 (Some 999); Sim.listen 22 (Some 100)] [] Sim.demo
  = (let '(r, l2, w2) := scan [Sim.listen 22 (Some 100)] [] Sim.demo in
     (r, ([mkEvent (ProcessNew 999) (Some NoSuchProcess)] ++ l2)%list, w2)).
Proof.
  rewrite (scan_skips_failed_inspection
             (Sim.listen 5000 (Some 999)) [Sim.listen 22 (Some 100)] []
             (mkAddr "0.0.0.0" 5000) 999 Sim.demo eq_refl eq_refl eq_refl).
  reflexivity.
Defined.

(** X9.  When the connection query itself raises, the error reaches the
    caller of every operation built on the enumeration:
    [get_listening_ports], [get_dev_ports], [get_port_info], [kill_port]
    and [kill_all_dev_ports] raise it after that one call, and nothing is
    inspected or signalled. *)
Theorem enumeration_failure_propagates
    {World : Type} {os : Psutil World}
    (e : psutil_error) (w w1 : World) :
  os_net_connections w = (Raised e, w1) ->
  let failed {A : Type} : outcome A * list event * World :=
    (Raised e, [mkEvent NetConnections (Some e)], w1) in
  get_listening_ports w = failed
  /\ get_dev_ports w = failed
  /\ (forall wanted, get_port_info wanted w = failed)
  /\ (forall wanted force, kill_port wanted force w = failed)
  /\ (forall force, kill_all_dev_ports force w = failed).
Proof.
  intros H failed. subst failed.
  assert (Hl : get_listening_ports w
               = (Raised e, [mkEvent NetConnections (Some e)], w1)).
  { unfold get_listening_ports. run_unfold. now rewrite H. }
  assert (Hd : get_dev_ports w
               = (Raised e, [mkEvent NetConnections (Some e)], w1)).
  { unfold get_dev_ports, bind. now rewrite Hl. }
  split; [exact Hl|]. split; [exact Hd|].
  split; [|split]; intros; unfold get_port_info, kill_port,
    kill_all_dev_ports, bind; rewrite ?Hl, ?Hd; reflexivity.
Qed.

Lemma enumeration_failure_propagates_witness :
  @get_listening_ports Sim.host Sim.locked Sim.demo
  = (Raised AccessDenied, [mkEvent NetConnections (Some AccessDenied)], Sim.demo)
  /\ @kill_port Sim.host Sim.locked 3000 true Sim.demo
     = (Raised AccessDenied, [mkEvent NetConnections (Some AccessDenied)], Sim.demo)
  /\ @kill_all_dev_ports Sim.host Sim.locked true Sim.demo
     = (Raised AccessDenied, [mkEvent NetConnections (Some AccessDenied)], Sim.demo).
Proof.
  destruct (@enumeration_failure_propagates Sim.host Sim.locked
              AccessDenied Sim.demo Sim.demo eq_refl)
    as [Hl [_ [_ [Hp Ha]]]].
  split; [exact Hl|]. split; [apply Hp | apply Ha].
Defined.

(** ** Termination of one process: the shape of a run *)


(** X11.  A run of [kill_process] is short: at most six calls, at most
    one graceful signal, at most one forced signal and at most two waits,
    each with a timeout of 3, all about the given pid.  With [force] true
    it sends no graceful signal, waits at most once and makes at most
    three calls. *)
Theorem kill_process_bounded
    {World : Type} {os : Psutil World}
    (pid : Z) (force : bool) (w : World) :
  let log := log_of (kill_process pid force w) in
  (List.length log <= 6)%nat
  /\ (count_calls is_graceful_signal log <= 1)%nat
  /\ (count_calls is_forced_signal log <= 1)%nat
  /\ (count_calls is_wait log <= 2)%nat
  /\ Forall (fun e => is_wait (ev_call e) = true ->
                      ev_call e = ProcessWait pid 3) log
  /\ Forall (fun e => call_pid (ev_call e) = Some pid) log
  /\ (if force
      then count_calls is_graceful_signal log = 0%nat
           /\ (count_calls is_wait log <= 1)%nat
           /\ (List.length log <= 3)%nat
      else True).
Proof.
  unfold kill_process, kill_process_body, kill_attempt, count_calls.
  run_unfold.
  destruct force; repeat os_step_goal; cbn;
    repeat split; try lia;
    repeat (apply Forall_cons; [cbn; intros; first [reflexivity | discriminate]|]);
    apply Forall_nil.
Qed.

(** X12.  [kill_process] called with [force] false sends the forced
    signal only after a call of the same run has raised
    [TimeoutExpired], and then the graceful signal was sent before. *)
Theorem kill_process_forced_only_after_timeout
    {World : Type} {os : Psutil World}
    (pid : Z) (w : World) (before after : list event) (e : event) :
  log_of (kill_process pid false w) = (before ++ e :: after)%list ->
  is_forced_signal (ev_call e) = true ->
  (exists t, In t before /\ ev_error t = Some TimeoutExpired)
  /\ (count_calls is_forced_signal before = 0)%nat.
Proof.
  unfold kill_process, kill_process_body, kill_attempt, count_calls.
  run_unfold. intros H He.
  repeat os_step H;
    repeat match goal with
           | H : _ = (?pre ++ _ :: _)%list |- _ =>
               destruct pre; cbn in H; inversion H; subst; clear H
           end;
    cbn in He; try discriminate He;
    (split; [|reflexivity]);
    match goal with
    | |- exists t, In t ?l /\ _ =>
        let rec pick l :=
          match l with
          | ?x :: ?r =>
              first [ exists x; split; [cbn; tauto | reflexivity] | pick r ]
          end in
        pick l
    end.
Qed.

Lemma kill_process_forced_only_after_timeout_witness :
  (exists t,
      In t [mkEvent (ProcessNew 500) None;
            mkEvent (ProcessTerminate 500) None;
            mkEvent (ProcessWait 500 3) (Some TimeoutExpired);
            mkEvent (ProcessNew 500) None]
      /\ ev_error t = Some TimeoutExpired)
  /\ (count_calls is_forced_signal
        [mkEvent (ProcessNew 500) None;
         mkEvent (ProcessTerminate 500) None;
         mkEvent (ProcessWait 500 3) (Some TimeoutExpired);
         mkEvent (ProcessNew 500) None] = 0)%nat.
Proof.
  apply (kill_process_forced_only_after_timeout 500 Sim.demo
           [mkEvent (ProcessNew 500) None;
            mkEvent (ProcessTerminate 500) None;
            mkEvent (ProcessWait 500 3) (Some TimeoutExpired);
            mkEvent (ProcessNew 500) None]
           [mkEvent (ProcessWait 500 3) None]
           (mkEvent (ProcessKill 500) None));
    reflexivity.
Defined.

(** ** Bulk termination, from the listing to the signals *)

Lemma count_successes_bounds (answers : list (outcome bool)) :
  0 <= count_successes answers <= Z.of_nat (List.length answers).
Proof.
  unfold count_successes. split; [lia|].
  apply Nat2Z.inj_le. induction answers as [|a t IH]; cbn; [lia|].
  destruct a as [[]|]; cbn; lia.
Qed.

Lemma kill_answers_length {World : Type} {os : Psutil World}
    (force : bool) (pids : list Z) :
  forall w : World, List.length (kill_answers force pids w) = List.length pids.
Proof.
  induction pids as [|p rest IH]; intros w; cbn; [reflexivity|].
  destruct (kill_process p force w) as [[r l] w1]. cbn. now rewrite IH.
Qed.

(** X13.  When the enumeration returns a listing, [kill_all_dev_ports]
    returns a count, whatever the host does afterwards.  Every signal
    and every wait of the run is about the pid of a listed finding that
    is on a development port and is not protected, and the count lies
    between 0 and the number of those findings. *)
Theorem kill_all_dev_ports_targets
    {World : Type} {os : Psutil World}
    (force : bool) (w w0 : World) (l0 : list event)
    (listing : list PortProcess) :
  get_listening_ports w = (Returned listing, l0, w0) ->
  exists (killed : Z) (log : list event) (w' : World),
    kill_all_dev_ports force w = (Returned killed, (l0 ++ log)%list, w')
    /\ 0 <= killed
       <= Z.of_nat (List.length
                      (unprotected
                         (filter (fun p => is_dev_port (port p)) listing)))
    /\ Forall (fun e =>
                 is_inspection (ev_call e) = false ->
                 exists f, In f listing
                           /\ is_dev_port (port f) = true
                           /\ is_protected f = false
                           /\ call_pid (ev_call e) = Some (pid f))
              (l0 ++ log).
Proof.
  intros Hl.
  set (dev := filter (fun p => is_dev_port (port p)) listing).
  destruct (kill_each_spec force dev 0 w0) as [log [w' [Hrun [_ Hlog]]]].
  rewrite Z.add_0_l in Hrun.
  eexists _, log, w'. split; [|split].
  - unfold kill_all_dev_ports, get_dev_ports, bind, ret.
    rewrite Hl. fold dev. rewrite Hrun. now rewrite app_nil_r.
  - pose proof (count_successes_bounds
                  (kill_answers force (map pid (unprotected dev)) w0)) as Hb.
    rewrite kill_answers_length, length_map in Hb. exact Hb.
  - apply Forall_app. split.
    + apply get_listening_ports_inspects in Hl.
      eapply Forall_impl; [|exact Hl]. cbn. intros e He Hn. congruence.
    + eapply Forall_impl; [|exact Hlog]. cbn.
      intros e [f [Hin [Hprot Hpid]]] _.
      apply filter_In in Hin. destruct Hin as [Hin Hdev].
      exists f. repeat split; assumption.
Qed.

(** X13 on the demonstration host: four findings are on a development
    port and not protected, two terminations succeed, and the signals go
    to pids 200, 700, 500 and 600 only. *)
Lemma kill_all_dev_ports_targets_witness :
  exists (killed : Z) (log l0 : list event) (w' : Sim.host)
         (listing : list PortProcess),
    kill_all_dev_ports false Sim.demo = (Returned killed, (l0 ++ log)%list, w')
    /\ killed = 2
    /\ List.length (unprotected
                      (filter (fun p => is_dev_port (port p)) listing)) = 4%nat
    /\ Forall (fun e =>
                 is_inspection (ev_call e) = false ->
                 exists f, In f listing
                           /\ is_dev_port (port f) = true
                           /\ is_protected f = false
                           /\ call_pid (ev_call e) = Some (pid f))
              (l0 ++ log).
Proof.
  assert (Hrun : exists listing l0,
             get_listening_ports Sim.demo = (Returned listing, l0, Sim.demo)
             /\ List.length
                  (unprotected
                     (filter (fun p => is_dev_port (port p)) listing)) = 4%nat).
  { eexists _, _. split; vm_compute; reflexivity. }
  destruct Hrun as [listing [l0 [Hl Hlen]]].
  destruct (kill_all_dev_ports_targets false Sim.demo Sim.demo l0 listing Hl)
    as [killed [log [w' [Hrun [_ Hlog]]]]].
  exists killed, log, l0, w', listing.
  split; [exact Hrun|]. split; [|split; [exact Hlen | exact Hlog]].
  vm_compute in Hrun. inversion Hrun. reflexivity.
Defined.

(** ** The classification tables *)

Lemma str_in_trans (a b c : string) :
  str_in a b = true -> str_in b c = true -> str_in a c = true.
Proof.
  intros Hab Hbc. apply str_in_spec in Hab, Hbc. apply str_in_spec.
  destruct Hab as [p1 [q1 ->]]. destruct Hbc as [p2 [q2 ->]].
  exists (p2 ++ p1), (q1 ++ q2).
  induction p2 as [|x p2 IH]; cbn.
  - induction p1 as [|y p1 IH1]; cbn.
    + induction a as [|z a IHa]; cbn; [reflexivity | now rewrite IHa].
    + now rewrite IH1.
  - now rewrite IH.
Qed.

(** X14.  Two entries of each table add nothing.  The protection test
    is decided by postgres, mysql, redis-server, mongod, nginx and
    apache2 alone, since postgresql and mysqld contain postgres and
    mysql; the development ports are decided by the four ranges
    3000-3999, 4200-4299, 5000-5999 and 8000-8999 alone, since 5173 and
    8080 lie inside them. *)
Theorem tables_redundant_entries :
  (forall n : string,
      protected_name n
      = existsb (fun protected => str_in protected (lower n))
          ["postgres"; "mysql"; "redis-server"; "mongod"; "nginx"; "apache2"])
  /\ (forall p : Z,
         is_dev_port p
         = existsb (fun r => let '(start, stop) := r in
                             (start <=? p) && (p <=? stop))
             [(3000, 3999); (4200, 4299); (5000, 5999); (8000, 8999)]).
Proof.
  split.
  - intros n. unfold protected_name, PROTECTED_PROCESSES. cbn [existsb].
    pose proof (str_in_trans "postgres" "postgresql" (lower n) eq_refl) as Hpg.
    pose proof (str_in_trans "mysql" "mysqld" (lower n) eq_refl) as Hmy.
    destruct (str_in "postgresql" (lower n));
      [rewrite (Hpg eq_refl); reflexivity|].
    destruct (str_in "mysqld" (lower n));
      [rewrite (Hmy eq_refl); cbn; now rewrite orb_true_r|].
    reflexivity.
  - intros p. unfold is_dev_port, DEV_PORT_RANGES. cbn [existsb].
    destruct (3000 <=? p) eqn:H1, (p <=? 3999) eqn:H2,
             (4200 <=? p) eqn:H3, (p <=? 4299) eqn:H4,
             (5000 <=? p) eqn:H5, (p <=? 5999) eqn:H6,
             (8000 <=? p) eqn:H7, (p <=? 8999) eqn:H8;
      cbn; try reflexivity;
      rewrite ?orb_false_r;
      repeat match goal with
             | H : (_ <=? _) = true |- _ => apply Z.leb_le in H
             | H : (_ <=? _) = false |- _ => apply Z.leb_gt in H
             end;
      try lia;
      (apply andb_false_iff; rewrite Z.leb_gt, Z.leb_gt; lia).
Qed.

(** ** Humanization: the words of the command line *)


Lemma app_assoc_str (a b c : string) : (a ++ b) ++ c = a ++ b ++ c.
Proof. induction a as [|x a IH]; cbn; [reflexivity | now rewrite IH]. Qed.

(** Every word of a split is a non-empty run. *)
Lemma split_from_words (s : string) :
  forall word tok, In tok (split_from word s) -> truthy tok = true.
Proof.
  induction s as [|c s IH]; intros word tok; cbn.
  - destruct (truthy word) eqn:Hw; cbn; [|tauto].
    intros [<- | []]. exact Hw.
  - destruct (isspace c).
    + destruct (truthy word) eqn:Hw.
      * intros [<- | H]; [exact Hw | eapply IH; exact H].
      * apply IH.
    + apply IH.
Qed.

Lemma last_in (l : list string) (d : string) : l <> [] -> In (last l d) l.
Proof.
  induction l as [|x t IH]; [congruence|]. intros _.
  destruct t as [|y t]; [now left|]. right. apply IH. discriminate.
Qed.




(** X15.  The index of [cmdline.split()[-1]] in the Nodemon and
    TypeScript Node labels is always in range: a command line whose
    lower-cased form contains nodemon or ts-node is not empty and splits
    into at least one word, so the last word exists and is not empty,
    and the bare labels of the [else] alternatives are never returned. *)
Theorem last_word_in_range (cmdline : string) :
  str_in "nodemon" (lower cmdline) = true
  \/ str_in "ts-node" (lower cmdline) = true ->
  truthy cmdline = true
  /\ split cmdline <> []
  /\ In (last_word cmdline) (split cmdline)
  /\ truthy (last_word cmdline) = true
  /\ forall name label,
       node_block cmdline name = Some label ->
       label <> "Nodemon" /\ label <> "TypeScript Node".
Proof.
  intros H.
  assert (Hs : split cmdline <> [] /\ truthy cmdline = true).
  { destruct H as [H | H];
      [now apply last_word_nodemon | now apply last_word_ts_node]. }
  destruct Hs as [Hsplit Htruthy].
  assert (Hin : In (last_word cmdline) (split cmdline))
    by (apply last_in; exact Hsplit).
  split; [exact Htruthy|]. split; [exact Hsplit|]. split; [exact Hin|].
  split; [eapply split_from_words; exact Hin|].
  intros name label. unfold node_block. rewrite Htruthy.
  case_guards; intros Hl; try discriminate Hl;
    injection Hl as <-; split; discriminate.
Qed.

Lemma last_word_in_range_witness :
  truthy "NODEMON" = true
  /\ split "NODEMON" <> []
  /\ In (last_word "NODEMON") (split "NODEMON")
  /\ truthy (last_word "NODEMON") = true
  /\ forall name label,
       node_block "NODEMON" name = Some label ->
       label <> "Nodemon" /\ label <> "TypeScript Node".
Proof.
  apply (last_word_in_range "NODEMON"). left. reflexivity.
Defined.



(** ** The command line front end *)

Lemma get_port_info_inspects {World : Type} {os : Psutil World}
    (wanted : Z) (w w' : World) (r : outcome (option PortProcess))
    (log : list event) :
  get_port_info wanted w = (r, log, w') ->
  Forall (fun e => is_inspection (ev_call e) = true) log.
Proof.
  unfold get_port_info, bind, ret. intros H.
  destruct (get_listening_ports w) as [[[l|e] l0] w0] eqn:Hl;
    inversion H; subst; try rewrite app_nil_r;
    eapply get_listening_ports_inspects; exact Hl.
Qed.

Lemma get_dev_ports_inspects {World : Type} {os : Psutil World}
    (w w' : World) (r : outcome (list PortProcess)) (log : list event) :
  get_dev_ports w = (r, log, w') ->
  Forall (fun e => is_inspection (ev_call e) = true) log.
Proof.
  unfold get_dev_ports, bind, ret. intros H.
  destruct (get_listening_ports w) as [[[l|e] l0] w0] eqn:Hl;
    inversion H; subst; try rewrite app_nil_r;
    eapply get_listening_ports_inspects; exact Hl.
Qed.

Lemma no_signal_among_inspections (log : list event) :
  Forall (fun e => is_inspection (ev_call e) = true) log ->
  Exists (fun e => is_inspection (ev_call e) = false) log ->
  False.
Proof.
  intros Hall Hex. apply Exists_exists in Hex. destruct Hex as [e [Hin He]].
  rewrite Forall_forall in Hall. specialize (Hall e Hin). congruence.
Qed.

(** Closing a case of a statement made of equations of runs. *)
Ltac status_leaf :=
  cbn;
  lazymatch goal with
  | |- _ /\ _ => split; status_leaf
  | |- exists _, _ => eexists; status_leaf
  | |- _ \/ _ => first [left; solve [status_leaf] | right; solve [status_leaf]]
  | |- _ = _ => first [reflexivity | eassumption]
  | |- _ <> _ => assumption
  end.

Ltac cmd_unfold :=
  unfold Cli.kill_port, Cli.kill_all_dev, Cli.and_then, Cli.call_core,
    Cli.print, Cli.input, Cli.sys_exit, Cli.done,
    Cli.ending_of, Cli.calls_of, Cli.console_of in *.

(** X17.  [cli.kill_port] on a port with no listed finding prints the
    error line and exits with status 1; it has made the calls of one
    enumeration and sent no signal. *)
Theorem cli_kill_port_absent
    {World : Type} {os : Psutil World}
    (args : Cli.kill_args) (w w0 : World) (l0 : list event) (c : Cli.console) :
  get_port_info (Cli.arg_port args) w = (Returned None, l0, w0) ->
  Cli.kill_port args w c
  = (Cli.SysExit 1, l0, w0,
     {| Cli.stdout :=
          (Cli.stdout c
           ++ [("Error: No process found on port "
                ++ Cli.str (Cli.arg_port args) ++ Cli.newline)%string])%list;
        Cli.stdin := Cli.stdin c |})
  /\ Forall (fun e => is_inspection (ev_call e) = true) l0.
Proof.
  intros H. split.
  - cmd_unfold. rewrite H. cbn. now rewrite !app_nil_r.
  - eapply get_port_info_inspects. exact H.
Qed.

Lemma cli_kill_port_absent_witness :
  exists l0 : list event,
    Cli.kill_port (Cli.mkKillArgs 77 false false) Sim.demo
                  (Cli.mkConsole [] [])
    = (Cli.SysExit 1, l0, Sim.demo,
       Cli.mkConsole ["Error: No process found on port 77" ++ Cli.newline] [])
    /\ Forall (fun e => is_inspection (ev_call e) = true) l0.
Proof.
  eexists.
  apply (cli_kill_port_absent (Cli.mkKillArgs 77 false false)
           Sim.demo Sim.demo _ (Cli.mkConsole [] [])).
  vm_compute. reflexivity.
Defined.

(** X18.  [cli.kill_port] without [--yes] on a port whose finding is
    protected asks before it does anything: unless the next line of
    input is y or Y, no signal is sent.  The command exits with status
    0 when a line was read, and is left by [EOFError] when the input is
    at its end. *)
Theorem cli_kill_port_declined
    {World : Type} {os : Psutil World}
    (args : Cli.kill_args) (w w0 : World) (l0 : list event)
    (c : Cli.console) (f : PortProcess) :
  get_port_info (Cli.arg_port args) w = (Returned (Some f), l0, w0) ->
  is_protected f = true ->
  Cli.arg_yes args = false ->
  ~ Cli.agrees c ->
  let run := Cli.kill_port args w c in
  Cli.calls_of run = l0
  /\ Forall (fun e => is_inspection (ev_call e) = true) l0
  /\ Cli.ending_of run
     = match Cli.stdin c with
       | [] => Cli.Uncaught Cli.EOFError
       | _ :: _ => Cli.SysExit 0
       end.
Proof.
  intros H Hprot Hyes Hno run. subst run.
  assert (Hl0 : Forall (fun e => is_inspection (ev_call e) = true) l0)
    by (eapply get_port_info_inspects; exact H).
  cmd_unfold. rewrite H, Hprot, Hyes. cbn.
  destruct (Cli.stdin c) as [|line rest] eqn:Hin; cbn.
  - rewrite !app_nil_r. repeat split; assumption.
  - destruct (String.eqb (lower line) "y") eqn:Hy; cbn.
    + exfalso. apply Hno. exists line, rest. split; [exact Hin|].
      now apply String.eqb_eq.
    + rewrite !app_nil_r. repeat split; assumption.
Qed.

Lemma cli_kill_port_declined_witness :
  exists l0 : list event,
    Cli.calls_of (Cli.kill_port (Cli.mkKillArgs 5432 true false) Sim.demo
                                (Cli.mkConsole [] ["yes"])) = l0
    /\ Forall (fun e => is_inspection (ev_call e) = true) l0
    /\ Cli.ending_of (Cli.kill_port (Cli.mkKillArgs 5432 true false) Sim.demo
                                    (Cli.mkConsole [] ["yes"]))
       = Cli.SysExit 0.
Proof.
  assert (Hrun : exists f l0,
             get_port_info 5432 Sim.demo = (Returned (Some f), l0, Sim.demo)
             /\ is_protected f = true).
  { eexists _, _. split; vm_compute; reflexivity. }
  destruct Hrun as [f [l0 [Hinfo Hprot]]].
  exists l0.
  apply (cli_kill_port_declined (Cli.mkKillArgs 5432 true false)
           Sim.demo Sim.demo l0 (Cli.mkConsole [] ["yes"]) f Hinfo Hprot eq_refl).
  intros [line [rest [Hin Hy]]]. cbn in Hin. inversion Hin; subst.
  vm_compute in Hy. discriminate Hy.
Defined.

(** X19.  Whenever a run of [cli.kill_port] sends a signal or waits for
    a process, the lookup found a finding on the port, and that finding
    was not protected, or [--yes] was given, or the line read from the
    input was y or Y. *)
Theorem cli_kill_port_signals_need_consent
    {World : Type} {os : Psutil World}
    (args : Cli.kill_args) (w : World) (c : Cli.console) :
  Exists (fun e => is_inspection (ev_call e) = false)
         (Cli.calls_of (Cli.kill_port args w c)) ->
  exists f l0 w0,
    get_port_info (Cli.arg_port args) w = (Returned (Some f), l0, w0)
    /\ (is_protected f = false \/ Cli.arg_yes args = true \/ Cli.agrees c).
Proof.
  intros Hex.
  destruct (get_port_info (Cli.arg_port args) w) as [[[[f|]|e] l0] w0] eqn:Hinfo.
  - exists f, l0, w0. split; [reflexivity|].
    destruct (is_protected f) eqn:Hprot; [|now left]. right.
    destruct (Cli.arg_yes args) eqn:Hyes; [now left|]. right.
    destruct (Cli.stdin c) as [|line rest] eqn:Hin.
    + exfalso. revert Hex. cmd_unfold. rewrite Hinfo, Hprot, Hyes. cbn.
      rewrite Hin. cbn. rewrite !app_nil_r.
      apply no_signal_among_inspections.
      eapply get_port_info_inspects. exact Hinfo.
    + destruct (String.eqb (lower line) "y") eqn:Hy.
      * exists line, rest. split; [exact Hin | now apply String.eqb_eq].
      * exfalso. revert Hex. cmd_unfold. rewrite Hinfo, Hprot, Hyes. cbn.
        rewrite Hin. cbn. rewrite Hy. cbn. rewrite !app_nil_r.
        apply no_signal_among_inspections.
        eapply get_port_info_inspects. exact Hinfo.
  - exfalso. revert Hex. cmd_unfold. rewrite Hinfo. cbn. rewrite !app_nil_r.
    apply no_signal_among_inspections.
    eapply get_port_info_inspects. exact Hinfo.
  - exfalso. revert Hex. cmd_unfold. rewrite Hinfo. cbn.
    apply no_signal_among_inspections.
    eapply get_port_info_inspects. exact Hinfo.
Qed.

(** X19 on the demonstration host: postgres on port 5432 is terminated
    after the answer Y. *)
Lemma cli_kill_port_signals_need_consent_witness :
  exists f l0 w0,
    get_port_info 5432 Sim.demo = (Returned (Some f), l0, w0)
    /\ (is_protected f = false \/ false = true
        \/ Cli.agrees (Cli.mkConsole [] ["Y"])).
Proof.
  apply (cli_kill_port_signals_need_consent
           (Cli.mkKillArgs 5432 false false) Sim.demo (Cli.mkConsole [] ["Y"])).
  apply Exists_exists. exists (mkEvent (ProcessTerminate 300) None).
  split; [|reflexivity].
  vm_compute. repeat (first [left; reflexivity | right]).
Defined.

(** X20.  How [cli.kill_port] ends tells what happened.  It returns
    only when the [kill_port] of the port manager, run after the lookup,
    returned [True].  It exits with status 1 when the lookup found
    nothing or that [kill_port] returned [False], and with status 0 when
    the user declined; it exits with no other status.  [EOFError]
    leaves it only at the question, and an exception of [psutil] only
    from one of the two enumerations. *)
Theorem cli_kill_port_status
    {World : Type} {os : Psutil World}
    (args : Cli.kill_args) (w : World) (c : Cli.console) :
  let wanted := Cli.arg_port args in
  let asked (f : PortProcess) :=
    is_protected f = true /\ Cli.arg_yes args = false in
  match Cli.ending_of (Cli.kill_port args w c) with
  | Cli.Done _ =>
      exists f l0 w0 l1 w1,
        get_port_info wanted w = (Returned (Some f), l0, w0)
        /\ kill_port wanted (Cli.arg_force args) w0 = (Returned true, l1, w1)
  | Cli.SysExit code =>
      (code = 1
       /\ ((exists l0 w0, get_port_info wanted w = (Returned None, l0, w0))
           \/ exists f l0 w0 l1 w1,
                get_port_info wanted w = (Returned (Some f), l0, w0)
                /\ kill_port wanted (Cli.arg_force args) w0
                   = (Returned false, l1, w1)))
      \/ (code = 0
          /\ exists f l0 w0 line rest,
               get_port_info wanted w = (Returned (Some f), l0, w0)
               /\ asked f
               /\ Cli.stdin c = line :: rest /\ lower line <> "y")
  | Cli.Uncaught Cli.EOFError =>
      exists f l0 w0,
        get_port_info wanted w = (Returned (Some f), l0, w0)
        /\ asked f /\ Cli.stdin c = []
  | Cli.Uncaught (Cli.PsutilError e) =>
      (exists l0 w0, get_port_info wanted w = (Raised e, l0, w0))
      \/ exists f l0 w0 l1 w1,
           get_port_info wanted w = (Returned (Some f), l0, w0)
           /\ kill_port wanted (Cli.arg_force args) w0 = (Raised e, l1, w1)
  end.
Proof.
  intros wanted asked. subst wanted asked. cmd_unfold.
  destruct (get_port_info (Cli.arg_port args) w) as [[[[f|]|e] l0] w0] eqn:Hinfo;
    cbn;
    [ destruct (is_protected f) eqn:Hprot; cbn;
      [ destruct (Cli.arg_yes args) eqn:Hyes; cbn;
        [ | destruct (Cli.stdin c) as [|line rest] eqn:Hin; cbn;
            [ | destruct (String.eqb (lower line) "y") eqn:Hy; cbn;
                [ | apply String.eqb_neq in Hy ] ] ]
      | ] | | ];
    try (destruct (kill_port (Cli.arg_port args) (Cli.arg_force args) w0)
           as [[[[]|e] l1] w1] eqn:Hk; cbn);
    status_leaf.
Qed.

Lemma print_each_run {World : Type} (dev_ports : list PortProcess) :
  forall (w : World) (c : Cli.console),
    Cli.print_each dev_ports w c
    = (Cli.Done tt, [], w,
       {| Cli.stdout :=
            (Cli.stdout c
             ++ map (fun p => ("  - " ++ Cli.str (port p) ++ ": "
                               ++ process_name p ++ Cli.newline)%string)
                    dev_ports)%list;
          Cli.stdin := Cli.stdin c |}).
Proof.
  induction dev_ports as [|p rest IH]; intros w c.
  - cbn. unfold Cli.done. rewrite app_nil_r. now destruct c.
  - cbn [Cli.print_each map]. unfold Cli.and_then, Cli.print at 1.
    rewrite IH. cbn. rewrite <- app_assoc.
    do 2 f_equal. f_equal. f_equal. f_equal.
    repeat rewrite app_assoc_str. reflexivity.
Qed.


(** X21.  [cli.kill_all_dev] without [--yes] asks before it does
    anything: unless the next line of input is y or Y, its calls are
    those of one enumeration and no signal is sent.  When no development
    port is listed it prints one line and returns, without a question
    and without a second enumeration.  It exits with no status other
    than 0. *)
Theorem cli_kill_all_dev_guarded
    {World : Type} {os : Psutil World}
    (args : Cli.kill_dev_args) (w : World) (c : Cli.console) :
  let run := Cli.kill_all_dev args w c in
  (Cli.dev_yes args = false -> ~ Cli.agrees c ->
   Forall (fun e => is_inspection (ev_call e) = true) (Cli.calls_of run))
  /\ (forall l0 w0,
         get_dev_ports w = (Returned [], l0, w0) ->
         run = (Cli.Done tt, l0, w0,
                {| Cli.stdout :=
                     (Cli.stdout c
                      ++ [("No development ports to kill"
                           ++ Cli.newline)%string])%list;
                   Cli.stdin := Cli.stdin c |}))
  /\ (forall code, Cli.ending_of run = Cli.SysExit code -> code = 0).
Proof.
  intros run. subst run. split; [|split].
  - intros Hyes Hno. cmd_unfold. rewrite Hyes.
    destruct (get_dev_ports w) as [[[dev|e] l0] w0] eqn:Hd; cbn;
      [|eapply get_dev_ports_inspects; exact Hd].
    apply get_dev_ports_inspects in Hd.
    destruct dev as [|p dev]; cbn; [now rewrite app_nil_r|].
    rewrite print_each_run. cbn.
    destruct (Cli.stdin c) as [|line rest] eqn:Hin; cbn;
      [now rewrite !app_nil_r|].
    destruct (String.eqb (lower line) "y") eqn:Hy; cbn;
      [|now rewrite !app_nil_r].
    exfalso. apply Hno. exists line, rest.
    split; [exact Hin | now apply String.eqb_eq].
  - intros l0 w0 Hd. cmd_unfold. rewrite Hd. cbn. now rewrite app_nil_r.
  - intros code. cmd_unfold.
    destruct (get_dev_ports w) as [[[dev|e] l0] w0]; cbn; [|discriminate].
    destruct dev as [|p dev]; cbn; [discriminate|].
    destruct (Cli.dev_yes args); cbn.
    + destruct (kill_all_dev_ports (Cli.dev_force args) w0) as [[[k|e] l1] w1];
        cbn; discriminate.
    + rewrite print_each_run. cbn.
      destruct (Cli.stdin c) as [|line rest]; cbn; [discriminate|].
      destruct (String.eqb (lower line) "y"); cbn.
      * destruct (kill_all_dev_ports (Cli.dev_force args) w0)
          as [[[k|e] l1] w1]; cbn; discriminate.
      * intros H. now inversion H.
Qed.

(** X21 on the demonstration host, with the answer no. *)
Lemma cli_kill_all_dev_guarded_witness :
  Forall (fun e => is_inspection (ev_call e) = true)
         (Cli.calls_of (Cli.kill_all_dev (Cli.mkKillDevArgs true false)
                          Sim.demo (Cli.mkConsole [] ["no"])))
  /\ Cli.ending_of (Cli.kill_all_dev (Cli.mkKillDevArgs true false)
                      Sim.demo (Cli.mkConsole [] ["no"]))
     = Cli.SysExit 0.
Proof.
  destruct (cli_kill_all_dev_guarded (Cli.mkKillDevArgs true false)
              Sim.demo (Cli.mkConsole [] ["no"])) as [Hguard _].
  split; [|vm_compute; reflexivity].
  apply Hguard; [reflexivity|].
  intros [line [rest [Hin Hy]]]. cbn in Hin. inversion Hin; subst.
  vm_compute in Hy. discriminate Hy.
Defined.


(** ** Two more facts on enumeration and humanization *)

(** X23.  No failure of a single process aborts the enumeration: when
    the host reports its connections and the inspection of a process
    raises nothing but [NoSuchProcess] and [AccessDenied],
    [get_listening_ports] returns a listing. *)
Theorem enumeration_returns
    {World : Type} {os : Psutil World}
    (w w0 : World) (conns : list sconn) :
  os_net_connections w = (Returned conns, w0) ->
  (forall p v, fst (os_Process p v) <> Raised TimeoutExpired) ->
  (forall p v, fst (os_cmdline p v) <> Raised TimeoutExpired) ->
  (forall p v, fst (os_name p v) <> Raised TimeoutExpired) ->
  exists findings log w',
    get_listening_ports w = (Returned findings, log, w')
    /\ Forall well_formed findings.
Proof.
  intros Hnet HP HC HN.
  destruct (scan_total conns HP HC HN [] w0) as [ports [l1 [w1 Hscan]]].
  exists (sorted port ports), (mkEvent NetConnections None :: l1 ++ [])%list, w1.
  split.
  - unfold get_listening_ports. run_unfold. now rewrite Hnet, Hscan.
  - apply scan_builds in Hscan. destruct Hscan as [found [-> [Hwf _]]].
    apply sorted_Forall. exact Hwf.
Qed.

Lemma enumeration_returns_witness :
  exists findings log w',
    get_listening_ports Sim.demo = (Returned findings, log, w')
    /\ Forall well_formed findings.
Proof.
  apply (enumeration_returns Sim.demo Sim.demo (Sim.conns Sim.demo));
    [ reflexivity | | | ];
    intros p v; cbn; unfold Sim.inspect;
    destruct (Sim.find_proc p (Sim.procs v)); cbn; discriminate.
Defined.

(** X24.  The Electron checks come before the checks by runtime: a
    command line that contains /proc/self/exe and type=utility is
    labelled as a utility process whatever the process is, also a node,
    python or java process, as "VSCode - Utility Process" when the name
    contains code or the command line contains /snap/code/, and as the
    process name followed by " - Utility Process" otherwise; likewise
    with type=renderer when type=utility is absent. *)
Theorem humanize_electron_first (cmdline name : string) :
  str_in "/proc/self/exe" cmdline = true ->
  let vscode :=
    str_in "code" (lower name) || str_in "/snap/code/" cmdline in
  (str_in "type=utility" cmdline = true ->
   _humanize_cmdline cmdline name
   = if vscode then "VSCode - Utility Process"
     else name ++ " - Utility Process")
  /\ (str_in "type=utility" cmdline = false ->
      str_in "type=renderer" cmdline = true ->
      _humanize_cmdline cmdline name
      = if vscode then "VSCode - Renderer Process"
        else name ++ " - Renderer Process").
Proof.
  intros Hexe vscode. subst vscode.
  unfold _humanize_cmdline, humanize_blocks. cbn [first_return].
  unfold vscode_block, electron_utility_block, electron_renderer_block.
  rewrite Hexe. split.
  - intros ->. cbn.
    destruct (str_in "code" (lower name) || str_in "/snap/code/" cmdline);
      reflexivity.
  - intros -> ->. cbn.
    destruct (str_in "code" (lower name) || str_in "/snap/code/" cmdline);
      reflexivity.
Qed.

Lemma humanize_electron_first_witness :
  _humanize_cmdline "/proc/self/exe --type=utility node_modules/vite" "node"
  = "node - Utility Process".
Proof.
  apply (humanize_electron_first
           "/proc/self/exe --type=utility node_modules/vite" "node");
    reflexivity.
Defined.
